(** * Trajectory playback of mushroom_rl, checked against its specification

    Shallow embedding of
    [mushroom_rl/environments/mujoco_envs/humanoids/trajectory.py]
    (class [Trajectory]) and of its callers [len_qpos_qvel], [setup] and
    [create_dataset] in
    [mushroom_rl/environments/mujoco_envs/humanoids/base_humanoid.py].

    Conventions of the embedding.
    - Python [int] is [Z].  Python and NumPy floats are rationals [Q]: the
      arithmetic is exact, so rounding error, NaN and the infinities of
      float64 are outside the model.  Numeric equalities between samples are
      stated with [==] ([Qeq]).
    - A two-dimensional NumPy array is a list of rows (channel-major, as in
      the source); a one-dimensional one is a list.
    - A method is a function from the state of the world to an outcome and
      the new state.  An exception leaves the mutations made before it in
      place, as in Python.
    - The keys list is a mutable Python object that the caller and the
      instance share: it lives in a store of list objects and is passed by
      reference. *)

From Stdlib Require Import ZArith QArith Qround Lia Sorted.
From stdpp Require Import gmap strings list.

Local Open Scope Z_scope.

(** ** Exceptions and outcomes *)

(** The exception classes that the modelled code can raise.
    [ConfigurationError] is the name used by the specification's error
    taxonomy; the source neither defines nor raises it. *)
Inductive exn : Type :=
  | NameError
  | TypeError
  | IndexError
  | ValueError
  | KeyError
  | ZeroDivisionError
  | ConfigurationError.

Inductive res (A : Type) : Type :=
  | Ok (a : A)
  | Raise (e : exn).
Arguments Ok {A} a.
Arguments Raise {A} e.

Definition res_bind {A B} (r : res A) (k : A -> res B) : res B :=
  match r with
  | Ok a => k a
  | Raise e => Raise e
  end.

Notation "'let?' x ':=' r 'in' k" := (res_bind r (fun x => k))
  (at level 10, x name, r at level 100, k at level 200).

Definition of_option {A} (e : exn) (o : option A) : res A :=
  match o with
  | Some a => Ok a
  | None => Raise e
  end.

(** ** Python and NumPy primitives *)

Module Py.

(** [int(x)] on a float: truncation toward zero. *)
Definition int (x : Q) : Z := Z.quot (Qnum x) (Zpos (Qden x)).

(** [round(x)] and [np.round(x)]: to the nearest integer, ties to even. *)
Definition round (x : Q) : Z :=
  let fl := Qfloor x in
  match Qcompare (x - inject_Z fl) (1 # 2) with
  | Lt => fl
  | Gt => fl + 1
  | Eq => if Z.even fl then fl else fl + 1
  end.

(** Position designated by the index [i] in a sequence of [n] items:
    negative indices count from the end, anything else is out of range. *)
Definition index (n : nat) (i : Z) : option nat :=
  if (0 <=? i) && (i <? Z.of_nat n) then Some (Z.to_nat i)
  else if (- Z.of_nat n <=? i) && (i <? 0) then Some (Z.to_nat (Z.of_nat n + i))
  else None.

(** [l[i]]: raises [IndexError] out of range. *)
Definition getitem {A} (l : list A) (i : Z) : res A :=
  match index (length l) i with
  | Some k => of_option IndexError (l !! k)
  | None => Raise IndexError
  end.

(** Bound of a slice, clamped as Python does. *)
Definition clamp (n : nat) (i : Z) : nat :=
  if i <? 0 then Z.to_nat (Z.max (i + Z.of_nat n) 0)
  else Z.to_nat (Z.min i (Z.of_nat n)).

(** [l[a:b]]: never raises. *)
Definition slice {A} (l : list A) (a b : Z) : list A :=
  take (clamp (length l) b - clamp (length l) a) (drop (clamp (length l) a) l).

(** [l.remove(x)]: drops the first occurrence, [ValueError] when absent. *)
Fixpoint remove (x : string) (l : list string) : res (list string) :=
  match l with
  | [] => Raise ValueError
  | y :: l' =>
      if decide (x = y) then Ok l'
      else let? r := remove x l' in Ok (y :: r)
  end.

End Py.

Module Np.

(** A two-dimensional array, one row per channel. *)
Abbreviation ndarray := (list (list Q)).

Definition rectangular (L : nat) (t : ndarray) : Prop :=
  Forall (fun row => length row = L) t.

Definition same_lengthb (L : nat) (t : ndarray) : bool :=
  forallb (fun row => Nat.eqb (length row) L) t.

(** [np.array(rows)] on a list of one-dimensional arrays: rows of unequal
    length are refused. An empty list gives an array with no second axis,
    which is represented by [[]]. *)
Definition array (rows : list (list Q)) : res ndarray :=
  match rows with
  | [] => Ok []
  | r :: _ => if same_lengthb (length r) rows then Ok rows else Raise ValueError
  end.

(** [t.shape[1]]: the number of samples per channel.  The array without
    rows has a single axis, so that asking for the second one raises. *)
Definition shape1 (t : ndarray) : res Z :=
  match t with
  | [] => Raise IndexError
  | r :: _ => Ok (Z.of_nat (length r))
  end.

(** [t[i, j]] *)
Definition getitem2 (t : ndarray) (i j : Z) : res Q :=
  let? row := Py.getitem t i in Py.getitem row j.

(** [t[:, j]] *)
Fixpoint column (t : ndarray) (j : Z) : res (list Q) :=
  match t with
  | [] => Ok []
  | row :: t' =>
      let? x := Py.getitem row j in
      let? c := column t' j in
      Ok (x :: c)
  end.

(** [t[:, a:b]] *)
Definition columns (t : ndarray) (a b : Z) : ndarray :=
  (fun row => Py.slice row a b) <$> t.

(** [t[i, :] -= v] for a row [i] that has been checked to exist. *)
Definition isub_row (t : ndarray) (i : nat) (v : Q) : ndarray :=
  alter (fmap (fun x => x - v)%Q) i t.

(** [np.linspace(0, stop, num, endpoint=True)] *)
Definition linspace0 (stop : Q) (num : Z) : res (list Q) :=
  if num <? 0 then Raise ValueError
  else if num =? 1 then Ok [0%Q]
  else
    let step := (stop / inject_Z (num - 1))%Q in
    Ok ((fun j => (inject_Z (Z.of_nat j) * step)%Q) <$> seq 0 (Z.to_nat num)).

(** [a.astype(np.int32)] on a value that is already integral: values outside
    the 32-bit range are not representable (the conversion then yields the
    most negative integer on x86). *)
Definition astype_int32 (z : Z) : Z :=
  if (- 2 ^ 31 <=? z) && (z <? 2 ^ 31) then z else - 2 ^ 31.

(** The global generator behind [np.random.rand()]: a stream of raw words
    and a position.  A draw is a multiple of [2^-53] in [[0, 1)]. *)
Record RandomState : Type := mkRandomState {
  stream : nat -> Z;
  position : nat
}.

Definition rand (g : RandomState) : Q * RandomState :=
  (Qmake (stream g (position g) mod 2 ^ 53) (2 ^ 53),
   mkRandomState (stream g) (S (position g))).

End Np.

(** ** State-and-exception monad *)

Definition M (S A : Type) : Type := S -> res A * S.

Definition ret {S A} (a : A) : M S A := fun s => (Ok a, s).
Definition raise {S A} (e : exn) : M S A := fun s => (Raise e, s).
Definition lift {S A} (r : res A) : M S A := fun s => (r, s).
Definition gets {S A} (f : S -> A) : M S A := fun s => (Ok (f s), s).
Definition modify {S} (f : S -> S) : M S unit := fun s => (Ok tt, f s).

Definition bind {S A B} (m : M S A) (k : A -> M S B) : M S B :=
  fun s =>
    match m s with
    | (Ok a, s') => k a s'
    | (Raise e, s') => (Raise e, s')
    end.

Notation "x <- m ;; k" := (bind m (fun x => k))
  (at level 100, m at next level, k at level 200, right associativity).
Notation "m ;; k" := (bind m (fun _ => k))
  (at level 100, k at level 200, right associativity).

(** ** The data of the class *)

Definition loc : Type := positive.

(** The store of Python list objects (lists of keys), by reference. *)
Abbreviation store := (gmap loc (list string)).

(** The archive read by [np.load]: one float array per channel key (the
    optional ["goal"] array is one of them) and optionally an integer
    ["split_points"] array. *)
Record npz : Type := mkNpz {
  arrays : gmap string (list Q);
  split_points_array : option (list Z)
}.

(** [key in archive.keys()] *)
Definition npz_mem (key : string) (a : npz) : bool :=
  if decide (key = "split_points"%string)
  then bool_decide (is_Some (split_points_array a))
  else bool_decide (is_Some (arrays a !! key)).

(** [archive[key]], read as a float array *)
Definition npz_get (key : string) (a : npz) : res (list Q) :=
  if decide (key = "split_points"%string)
  then of_option KeyError (fmap (M := list) inject_Z <$> split_points_array a)
  else of_option KeyError (arrays a !! key).

Record Trajectory : Type := mkTrajectory {
  _trajectory_files : npz;
  keys : loc;
  trajectory : Np.ndarray;
  split_points : list Z;
  n_repeating_steps : Z;
  traj_dt : Q;
  control_dt : Q;
  traj_speed_multiplier : Q;
  subtraj_step_no : Z;
  x_dist : Q;
  subtraj : Np.ndarray
}.

Definition set_subtraj_step_no (c : Z) (o : Trajectory) : Trajectory :=
  mkTrajectory (_trajectory_files o) (keys o) (trajectory o) (split_points o)
    (n_repeating_steps o) (traj_dt o) (control_dt o) (traj_speed_multiplier o)
    c (x_dist o) (subtraj o).

Definition set_x_dist (d : Q) (o : Trajectory) : Trajectory :=
  mkTrajectory (_trajectory_files o) (keys o) (trajectory o) (split_points o)
    (n_repeating_steps o) (traj_dt o) (control_dt o) (traj_speed_multiplier o)
    (subtraj_step_no o) d (subtraj o).

Definition set_subtraj (t : Np.ndarray) (o : Trajectory) : Trajectory :=
  mkTrajectory (_trajectory_files o) (keys o) (trajectory o) (split_points o)
    (n_repeating_steps o) (traj_dt o) (control_dt o) (traj_speed_multiplier o)
    (subtraj_step_no o) (x_dist o) t.

(** What a method call can read and change: the instance, the global random
    generator, and a ghost counter of the calls to
    [get_next_sub_trajectory] (it is not in the source; it only records that
    the method has been entered). *)
Record World : Type := mkWorld {
  self : Trajectory;
  np_random : Np.RandomState;
  sub_trajectory_calls : nat
}.

Definition on_self (f : Trajectory -> Trajectory) (w : World) : World :=
  mkWorld (f (self w)) (np_random w) (sub_trajectory_calls w).

Definition np_random_rand : M World Q :=
  fun w =>
    let (r, g) := Np.rand (np_random w) in
    (Ok r, mkWorld (self w) g (sub_trajectory_calls w)).

Definition ghost_enter_sub_trajectory : M World unit :=
  modify (fun w => mkWorld (self w) (np_random w) (S (sub_trajectory_calls w))).

(** ** The methods *)

(** The property [traj_length]: [self.subtraj.shape[1]]. *)
Definition traj_length : M World Z :=
  t <- gets (fun w => subtraj (self w)) ;;
  lift (Np.shape1 t).

(** [reset_trajectory(self, len_q_pos, len_qvel, substep_no=None)] *)
Definition reset_trajectory (len_q_pos len_qvel : Z) (substep_no : option Z)
  : M World (list Q * list Q) :=
  modify (on_self (set_x_dist 0)) ;;
  match substep_no with
  | None =>
      r <- np_random_rand ;;
      L <- traj_length ;;
      modify (on_self (set_subtraj_step_no (Py.int (r * (inject_Z L * (45 # 100))))))
  | Some s =>
      modify (on_self (set_subtraj_step_no s))
  end ;;
  modify (on_self (fun o => set_subtraj (trajectory o) o)) ;;
  (* reset x and y to middle position *)
  s <- gets (fun w => subtraj_step_no (self w)) ;;
  t <- gets (fun w => subtraj (self w)) ;;
  x0 <- lift (Np.getitem2 t 0 s) ;;
  modify (on_self (set_subtraj (Np.isub_row t 0 x0))) ;;
  t <- gets (fun w => subtraj (self w)) ;;
  y0 <- lift (Np.getitem2 t 1 s) ;;
  modify (on_self (set_subtraj (Np.isub_row t 1 y0))) ;;
  t <- gets (fun w => subtraj (self w)) ;;
  qpos <- lift (Np.column (Py.slice t 0 len_q_pos) s) ;;
  qvel <- lift (Np.column (Py.slice t len_q_pos (len_q_pos + len_qvel)) s) ;;
  ret (qpos, qvel).

(** Binding of the arguments of a call of [self.reset_trajectory] with the
    positional arguments [args] and the keyword [substep_no=kw]: the two
    leading parameters have no default. *)
Definition call_reset_trajectory (args : list Z) (kw : option Z)
  : M World (list Q * list Q) :=
  match args, kw with
  | [len_q_pos; len_qvel], _ => reset_trajectory len_q_pos len_qvel kw
  | [len_q_pos; len_qvel; s], None => reset_trajectory len_q_pos len_qvel (Some s)
  | _, _ => raise TypeError
  end.

(** [get_next_sub_trajectory(self)] *)
Definition get_next_sub_trajectory : M World unit :=
  ghost_enter_sub_trajectory ;;
  d <- gets (fun w => x_dist (self w)) ;;
  t <- gets (fun w => subtraj (self w)) ;;
  v <- lift (let? row := Py.getitem t 0 in Py.getitem row (-1)) ;;
  modify (on_self (set_x_dist (d + v)%Q)) ;;
  call_reset_trajectory [] None ;;
  ret tt.

(** [_get_traj_gait_sub_steps(self, initial_walking_step,
    number_of_walking_steps=1)]; it reads the instance and changes nothing. *)
Definition _get_traj_gait_sub_steps (o : Trajectory)
    (initial_walking_step number_of_walking_steps : Z) : res Np.ndarray :=
  let? start_sim_step := Py.getitem (split_points o) initial_walking_step in
  let? end_sim_step :=
    Py.getitem (split_points o) (initial_walking_step + number_of_walking_steps) in
  let sub_traj := Np.columns (trajectory o) start_sim_step end_sim_step in
  let? row := Py.getitem (trajectory o) 0 in
  let? initial_x_pos := Py.getitem row start_sim_step in
  Ok (Np.isub_row sub_traj 0 initial_x_pos).

(** [get_next_sample(self)] *)
Definition get_next_sample : M World (list Q) :=
  c <- gets (fun w => subtraj_step_no (self w)) ;;
  L <- traj_length ;;
  (if L <=? c then get_next_sub_trajectory else ret tt) ;;
  t <- gets (fun w => subtraj (self w)) ;;
  c <- gets (fun w => subtraj_step_no (self w)) ;;
  sample <- lift (Np.column t c) ;;
  modify (on_self (set_subtraj_step_no (c + 1))) ;;
  ret sample.

(** [n] successive calls of [get_next_sample]; the samples are collected.
    The first exception stops the sequence, as it would stop the caller. *)
Fixpoint get_next_samples (n : nat) : M World (list (list Q)) :=
  match n with
  | O => ret []
  | S n' =>
      x <- get_next_sample ;;
      xs <- get_next_samples n' ;;
      ret (x :: xs)
  end.

(** ** Construction *)

(** Values that a module-level name of [trajectory.py] could be bound to and
    that the constructor would use. *)
Inductive pyval : Type :=
  | PyFloat (x : Q)
  | PyKeys (l : list string).

(** The data bindings of the module's global namespace.  There is none:
    the assignment of [FOOT_KEYS] is commented out, and [traj_speed_mult] is
    neither a parameter of [__init__] nor assigned anywhere.  (The imported
    modules and the class itself are no data and are left out.) *)
Definition module_globals : gmap string pyval := ∅.

(** Evaluation of a name that is not local to the function. *)
Definition load_global (name : string) : res pyval :=
  of_option NameError (module_globals !! name).

(** [keys += extra], on the list object itself *)
Definition list_iadd (keys : loc) (extra : list string) : M store unit :=
  modify (fun h => <[keys := (h !!! keys) ++ extra]> h).

(** [for ik in ignore_keys: keys.remove(ik)] *)
Fixpoint remove_ignored (keys : loc) (ignore_keys : list string) : M store unit :=
  match ignore_keys with
  | [] => ret tt
  | ik :: rest =>
      ks <- gets (fun h => h !!! keys) ;;
      ks' <- lift (Py.remove ik ks) ;;
      modify (fun h => <[keys := ks']> h) ;;
      remove_ignored keys rest
  end.

(** [[archive[key] for key in keys]] *)
Fixpoint load_channels (archive : npz) (ks : list string) : res (list (list Q)) :=
  match ks with
  | [] => Ok []
  | key :: ks' =>
      let? a := npz_get key archive in
      let? rest := load_channels archive ks' in
      Ok (a :: rest)
  end.

Section Resampling.

(** The value at [x] of the cubic spline through the points [(k, ys[k])];
    its values play no role below, only the shape of the result does. *)
Variable cubic_spline : list Q -> Q -> Q.

(** [interpolate.interp1d(x, traj, kind="cubic", axis=1)(x_new)] for
    [x = np.arange(L)]: at least four samples are needed, and every new
    abscissa must lie between the first and the last old one. *)
Definition interp1d_cubic (L : Z) (traj : Np.ndarray) (x_new : list Q)
  : res Np.ndarray :=
  if L <? 4 then Raise ValueError
  else if forallb (fun x => Qle_bool 0 x && Qle_bool x (inject_Z (L - 1))) x_new
  then Ok ((fun ys => cubic_spline ys <$> x_new) <$> traj)
  else Raise ValueError.

(** [_interpolate_trajectory(self, traj, factor)] *)
Definition _interpolate_trajectory (traj : Np.ndarray) (factor : Q)
  : res Np.ndarray :=
  let? L := Np.shape1 traj in
  let? x_new :=
    Np.linspace0 (inject_Z (L - 1)) (Py.round (inject_Z L * factor)) in
  interp1d_cubic L traj x_new.

(** [__init__(self, keys, traj_path, traj_dt=0.002, control_dt=0.01,
    ignore_keys=[])].  [archive] is what [np.load(traj_path)] returns;
    [ignore_keys] is only read and is taken by value. *)
Definition __init__ (keys : loc) (archive : npz) (traj_dt control_dt : Q)
    (ignore_keys : list string) : M store Trajectory :=
  (if npz_mem "goal" archive then list_iadd keys ["goal"%string] else ret tt) ;;
  (* needed for deep mimic *)
  (if npz_mem "rel_feet_xpos_r" archive then
     v <- lift (load_global "FOOT_KEYS") ;;
     match v with
     | PyKeys l => list_iadd keys l
     | PyFloat _ => raise TypeError
     end
   else ret tt) ;;
  (* remove unwanted keys *)
  remove_ignored keys ignore_keys ;;
  ks <- gets (fun h => h !!! keys) ;;
  rows <- lift (load_channels archive ks) ;;
  trajectory <- lift (Np.array rows) ;;
  split_points <-
    match split_points_array archive with
    | Some sp => ret sp
    | None => L <- lift (Np.shape1 trajectory) ;; ret [0; L]
    end ;;
  let n_repeating_steps := Z.of_nat (length split_points) - 1 in
  let traj_speed_multiplier := 1%Q in
  resample <-
    (if negb (Qeq_bool traj_dt control_dt) then ret true
     else
       v <- lift (load_global "traj_speed_mult") ;;
       match v with
       | PyFloat x => ret (negb (Qeq_bool x 1))
       | PyKeys _ => ret true
       end) ;;
  resampled <-
    (if resample : bool then
       (if Qeq_bool control_dt 0 then raise ZeroDivisionError else ret tt) ;;
       let new_traj_sampling_factor :=
         ((1 / traj_speed_multiplier) * (traj_dt / control_dt))%Q in
       t <- lift (_interpolate_trajectory trajectory new_traj_sampling_factor) ;;
       ret (t,
            (fun p => Np.astype_int32
                        (Py.round (inject_Z p * new_traj_sampling_factor)))
              <$> split_points)
     else ret (trajectory, split_points)) ;;
  let '(trajectory, split_points) := resampled in
  ret (mkTrajectory archive keys trajectory split_points n_repeating_steps
         traj_dt control_dt traj_speed_multiplier 0 0 trajectory).

End Resampling.

(** ** Datasets *)

(** A Python [dict] with string keys: the items in insertion order. *)
Module Dict.

(** [d[k] = v]: a key that is present keeps its place. *)
Fixpoint setitem {A} (k : string) (v : A) (d : list (string * A))
  : list (string * A) :=
  match d with
  | [] => [(k, v)]
  | (k', v') :: d' =>
      if decide (k = k') then (k, v) :: d' else (k', v') :: setitem k v d'
  end.

(** [dict(pairs)] *)
Definition of_pairs {A} (pairs : list (string * A)) : list (string * A) :=
  foldl (fun d kv => setitem (fst kv) (snd kv) d) [] pairs.

(** [del d[k]]: [KeyError] when the key is absent. *)
Fixpoint delitem {A} (k : string) (d : list (string * A))
  : res (list (string * A)) :=
  match d with
  | [] => Raise KeyError
  | (k', v) :: d' =>
      if decide (k = k') then Ok d'
      else let? r := delitem k d' in Ok ((k', v) :: r)
  end.

(** [for k in ks: del d[k]] *)
Fixpoint delitems {A} (ks : list string) (d : list (string * A))
  : res (list (string * A)) :=
  match ks with
  | [] => Ok d
  | k :: ks' => let? d' := delitem k d in delitems ks' d'
  end.

(** [list(d.values())] *)
Definition values {A} (d : list (string * A)) : list A := snd <$> d.

End Dict.

(** [np.transpose(t)] of a two-dimensional array: the list of its columns.
    (The array without rows has a single axis and is its own transpose.) *)
Definition np_transpose (t : Np.ndarray) : Np.ndarray :=
  match t with
  | [] => []
  | r :: _ => (fun j => omap (fun row => row !! j) t) <$> seq 0 (length r)
  end.

(** A state normalizer, as [create_dataset] uses it: it is given the
    statistics of the whole state matrix ([set_state] with the mean and the
    variance of its columns) and is then applied to one state at a time.  It
    is taken as a function of the state matrix and of the state. *)
Definition normalizer_t : Type := Np.ndarray -> list Q -> list Q.

Record dataset : Type := mkDataset {
  states : Np.ndarray;
  next_states : Np.ndarray;
  absorbing : list Q
}.

(** [create_dataset(self, ignore_keys=[], normalizer=None)].  [h] is the
    store that holds the keys list [self.keys]. *)
Definition create_dataset (h : store) (o : Trajectory)
    (ignore_keys : list string) (normalizer : option normalizer_t)
  : res dataset :=
  (* create a dict and extract all elements except the ones specified in
     ignore_keys *)
  let all_data := Dict.of_pairs (zip (h !!! keys o) (trajectory o)) in
  let? all_data := Dict.delitems ignore_keys all_data in
  let traj := Dict.values all_data in
  let? arr := Np.array traj in
  let states := np_transpose arr in
  (* normalize if needed *)
  let? states :=
    match normalizer with
    | Some n => Np.array (n states <$> states)
    | None => Ok states
    end in
  (* convert to dict with states and next_states *)
  let new_states := Py.slice states 0 (-1) in
  let new_next_states := Py.slice states 1 (Z.of_nat (length states)) in
  let absorbing := replicate (length new_states) 0%Q in
  Ok (mkDataset new_states new_next_states absorbing).

Record triplet_dataset : Type := mkTriplets {
  triplet_states : Np.ndarray;
  triplet_next_states : Np.ndarray;
  triplet_next_next_states : Np.ndarray
}.

(** [create_datase_with_triplet_states(self, normalizer=None)].  The local
    name [norm_states] is bound in the branch of the normalizer only; reading
    it unbound raises [UnboundLocalError], which is a [NameError]. *)
Definition create_datase_with_triplet_states (o : Trajectory)
    (normalizer : option normalizer_t) : res triplet_dataset :=
  (* get relevant data *)
  let states := np_transpose (trajectory o) in
  (* normalize if needed *)
  let? norm_states :=
    match normalizer with
    | Some n => let? a := Np.array (n states <$> states) in Ok (Some a)
    | None => Ok None
    end in
  (* convert to dict with states and next_states *)
  let? norm_states := of_option NameError norm_states in
  let n := Z.of_nat (length norm_states) in
  Ok (mkTriplets (Py.slice norm_states 0 (-2)) (Py.slice norm_states 1 (-1))
        (Py.slice norm_states 2 n)).

(** ** The caller: [BaseHumanoid] *)

(** [len_qpos_qvel(self)], for the observation keys [keys] of the
    environment: position keys start with ["q_"], velocity keys with
    ["dq_"]. *)
Definition len_qpos_qvel (keys : list string) : Z * Z :=
  let len_qpos :=
    Z.of_nat (length (filter (fun key => String.prefix "q_" key = true) keys)) in
  let len_qvel :=
    Z.of_nat (length (filter (fun key => String.prefix "dq_" key = true) keys)) in
  (len_qpos, len_qvel).

(** [create_dataset(self, ignore_keys=[], normalizer=None)] of the
    environment, whose [trajectory] attribute is [None] when no trajectory
    parameters were given. *)
Definition env_create_dataset (h : store) (trajectory : option Trajectory)
    (ignore_keys : list string) (normalizer : option normalizer_t)
  : res dataset :=
  match trajectory with
  | Some o => create_dataset h o ignore_keys normalizer
  | None => Raise ValueError
  end.

(** [setup(self)] of an environment that has a trajectory, as far as the
    trajectory goes: the reset whose result the environment copies into the
    simulation.  [observation_keys] is what [get_all_observation_keys()]
    returns. *)
Definition env_setup (observation_keys : list string)
  : M World (list Q * list Q) :=
  let '(len_qpos, len_qvel) := len_qpos_qvel observation_keys in
  call_reset_trajectory [len_qpos; len_qvel] None.

(** ** Definitions used by the statements *)

(** [t[i, j]] exists and is zero. *)
Definition zero_at (t : Np.ndarray) (i j : Z) : Prop :=
  exists v, Np.getitem2 t i j = Ok v /\ (v == 0)%Q.

(** The part of [reset_trajectory] that follows the choice of the cursor:
    copy of the trajectory, offset of the two position channels, and
    reading of the initial state. *)
Definition offset_and_read (len_q_pos len_qvel : Z) : M World (list Q * list Q) :=
  modify (on_self (fun o => set_subtraj (trajectory o) o)) ;;
  s <- gets (fun w => subtraj_step_no (self w)) ;;
  t <- gets (fun w => subtraj (self w)) ;;
  x0 <- lift (Np.getitem2 t 0 s) ;;
  modify (on_self (set_subtraj (Np.isub_row t 0 x0))) ;;
  t <- gets (fun w => subtraj (self w)) ;;
  y0 <- lift (Np.getitem2 t 1 s) ;;
  modify (on_self (set_subtraj (Np.isub_row t 1 y0))) ;;
  t <- gets (fun w => subtraj (self w)) ;;
  qpos <- lift (Np.column (Py.slice t 0 len_q_pos) s) ;;
  qvel <- lift (Np.column (Py.slice t len_q_pos (len_q_pos + len_qvel)) s) ;;
  ret (qpos, qvel).

(** A computation that only reads the state. *)
Definition read_only {S A} (m : M S A) : Prop := forall s, snd (m s) = s.

(** The content of the keys list once ["goal"] has been appended. *)
Definition keys_with_goal (archive : npz) (ks : list string) : list string :=
  if npz_mem "goal" archive then ks ++ ["goal"%string] else ks.

(** The removals of the loop over [ignore_keys], on the content alone. *)
Fixpoint remove_each (ignore_keys : list string) (ks : list string)
  : res (list string) :=
  match ignore_keys with
  | [] => Ok ks
  | ik :: rest => let? ks' := Py.remove ik ks in remove_each rest ks'
  end.

(** What resampling returns on the grid [x_new]: channel by channel, in the
    order of the input. *)
Definition resampled_on (cubic_spline : list Q -> Q -> Q) (x_new : list Q)
    (traj : Np.ndarray) : Np.ndarray :=
  (fun ys => cubic_spline ys <$> x_new) <$> traj.

(** The split points before resampling: those of the archive, or the two
    ends of the loaded trajectory. *)
Definition initial_split_points (archive : npz) (L : nat) : list Z :=
  default [0; Z.of_nat L] (split_points_array archive).

(** The factor as the constructor computes it. *)
Definition sampling_factor (dt cdt : Q) : Q := ((1 / 1) * (dt / cdt))%Q.

(** The working sub-trajectory that a reset to the cursor [s] builds from
    the trajectory [t]: channel 0 shifted by [x0], channel 1 by [y0]. *)
Definition offset_copy (t : Np.ndarray) (x0 y0 : Q) : Np.ndarray :=
  Np.isub_row (Np.isub_row t 0 x0) 1 y0.

(** The channels that [create_dataset] keeps: those whose key is not
    ignored, in the order of the keys. *)
Definition kept_channels (ks : list string) (t : Np.ndarray)
    (ignore_keys : list string) : Np.ndarray :=
  (filter (fun kv => kv.1 ∉ ignore_keys) (zip ks t)).*2.

(** One state, as the dataset holds it: normalized with the statistics of
    the state matrix [m] when there is a normalizer. *)
Definition normalized (normalizer : option normalizer_t) (m : Np.ndarray)
    (s : list Q) : list Q :=
  match normalizer with
  | Some n => n m s
  | None => s
  end.

(** ** Examples used as concrete inputs *)

Module Examples.

(** Two channels of three samples. *)
Definition walk : Np.ndarray := [[1; 3; 6]; [10; 20; 40]]%Q.

Definition generator : Np.RandomState := Np.mkRandomState (fun n => Z.of_nat n) 0.

Definition walk_object : Trajectory :=
  mkTrajectory (mkNpz ∅ None) 1%positive walk [0; 3] 1 (1 # 500) (1 # 100) 1
    0 0 walk.

Definition walk_world : World := mkWorld walk_object generator 0.

(** The state that [reset_trajectory(1, 1, substep_no=0)] leaves. *)
Definition walk_start : World :=
  snd (reset_trajectory 1 1 (Some 0) walk_world).

(** The scenario of the specification: split points [[0, 50, 120]]. *)
Definition ramp : list Q := (fun j => inject_Z (Z.of_nat j) + 2)%Q <$> seq 0 120.

Definition gait_object : Trajectory :=
  mkTrajectory (mkNpz ∅ (Some [0; 50; 120])) 1%positive [ramp; ramp]
    [0; 50; 120] 2 (1 # 500) (1 # 100) 1 0 0 [ramp; ramp].

(** A sub-trajectory of length 1000 and a generator whose next draw is the
    largest possible one, [1 - 2^-53]. *)
Definition long_object : Trajectory :=
  mkTrajectory (mkNpz ∅ None) 1%positive
    [replicate 1000 0%Q; replicate 1000 0%Q] [0; 1000] 1 (1 # 500) (1 # 100) 1
    0 0 [replicate 1000 0%Q; replicate 1000 0%Q].

Definition long_world : World :=
  mkWorld long_object (Np.mkRandomState (fun _ => 2 ^ 53 - 1) 0) 0.

(** The resampling scenario of the specification: channels [pos] and [vel]
    of 10 samples, recorded at 100 Hz and played at 200 Hz. *)
Definition scenario_trajectory : Np.ndarray :=
  [[0; 1; 2; 3; 4; 5; 6; 7; 8; 9]; [1; 1; 1; 1; 1; 1; 1; 1; 1; 1]]%Q.

Definition scenario_archive : npz :=
  mkNpz (<["pos"%string := [0; 1; 2; 3; 4; 5; 6; 7; 8; 9]%Q]>
           (<["vel"%string := [1; 1; 1; 1; 1; 1; 1; 1; 1; 1]%Q]> ∅))
    None.

(** The same archive with a ["goal"] array. *)
Definition goal_archive : npz :=
  mkNpz (<["goal"%string := [2; 2; 2; 2; 2; 2; 2; 2; 2; 2]%Q]>
           (arrays scenario_archive))
    None.

(** The same archive with the key that announces foot positions. *)
Definition feet_archive : npz :=
  mkNpz (<["rel_feet_xpos_r"%string := [0; 0; 0; 0; 0; 0; 0; 0; 0; 0]%Q]>
           (arrays scenario_archive))
    None.


(** Twenty samples per channel whose last repeat has two samples. *)
Definition short_archive : npz :=
  mkNpz (<["pos"%string := (fun j => inject_Z (Z.of_nat j)) <$> seq 0 20]>
           (<["vel"%string := replicate 20 1%Q]> ∅))
    (Some [0; 18; 20]).

(** The caller's keys list is the object 1 of the store. *)
Definition caller_keys : loc := 1%positive.

Definition scenario_store : store :=
  <[caller_keys := ["pos"; "vel"]%string]> ∅.

(** A piecewise-constant stand-in for the spline, for running examples. *)
Definition hold (ys : list Q) (x : Q) : Q :=
  default 0%Q (ys !! Z.to_nat (Qfloor x)).

(** A normalizer that ignores the statistics and shifts every entry. *)
Definition shift : normalizer_t := fun _ s => (fun x => x - 1)%Q <$> s.

(** The instance that the constructor returns in the resampling scenario. *)
Definition scenario_object : Trajectory :=
  match fst (__init__ hold caller_keys scenario_archive (1 # 100) (5 # 1000) []
               scenario_store) with
  | Ok o => o
  | Raise _ => walk_object
  end.

End Examples.

(** * Properties *)

(** ** Indexing and slicing *)

Lemma index_in_range (n : nat) (i : Z) :
  0 <= i < Z.of_nat n -> Py.index n i = Some (Z.to_nat i).
Proof.
  intros Hi. unfold Py.index.
  destruct (Z.leb_spec 0 i), (Z.ltb_spec i (Z.of_nat n)); simpl; try lia.
  reflexivity.
Qed.

Lemma index_from_end (n : nat) (i : Z) :
  - Z.of_nat n <= i < 0 -> Py.index n i = Some (Z.to_nat (Z.of_nat n + i)).
Proof.
  intros Hi. unfold Py.index.
  destruct (Z.leb_spec 0 i); simpl; try lia.
  destruct (Z.leb_spec (- Z.of_nat n) i), (Z.ltb_spec i 0); simpl; try lia.
  reflexivity.
Qed.

Lemma index_out_of_range (n : nat) (i : Z) :
  Z.of_nat n <= i \/ i < - Z.of_nat n -> Py.index n i = None.
Proof.
  intros Hi. unfold Py.index.
  destruct (Z.leb_spec 0 i), (Z.ltb_spec i (Z.of_nat n)),
    (Z.leb_spec (- Z.of_nat n) i), (Z.ltb_spec i 0); simpl; try lia;
    reflexivity.
Qed.

Lemma index_Some_lt (n : nat) (i : Z) (k : nat) :
  Py.index n i = Some k -> (k < n)%nat.
Proof.
  unfold Py.index.
  destruct (Z.leb_spec 0 i), (Z.ltb_spec i (Z.of_nat n)),
    (Z.leb_spec (- Z.of_nat n) i), (Z.ltb_spec i 0); simpl;
    intros [= <-]; lia.
Qed.

Lemma index_valid (n : nat) (i : Z) :
  - Z.of_nat n <= i < Z.of_nat n -> exists k, Py.index n i = Some k.
Proof.
  intros Hi. destruct (Z.lt_ge_cases i 0).
  - eexists. apply index_from_end. lia.
  - eexists. apply index_in_range. lia.
Qed.

Lemma getitem_index {A} (l : list A) (i : Z) (k : nat) :
  Py.index (length l) i = Some k ->
  exists x, l !! k = Some x /\ Py.getitem l i = Ok x.
Proof.
  intros Hk. unfold Py.getitem. rewrite Hk.
  destruct (lookup_lt_is_Some_2 l k (index_Some_lt _ _ _ Hk)) as [x Hx].
  exists x. rewrite Hx. auto.
Qed.

Lemma getitem_Ok_inv {A} (l : list A) (i : Z) (x : A) :
  Py.getitem l i = Ok x ->
  exists k, Py.index (length l) i = Some k /\ l !! k = Some x.
Proof.
  unfold Py.getitem. destruct (Py.index (length l) i) as [k|] eqn:Hk; [|discriminate].
  destruct (l !! k) as [y|] eqn:Hy; simpl; [|discriminate].
  intros [= <-]. eauto.
Qed.

Lemma getitem_out_of_range {A} (l : list A) (i : Z) :
  Z.of_nat (length l) <= i -> Py.getitem l i = Raise IndexError.
Proof.
  intros Hi. unfold Py.getitem. rewrite index_out_of_range by lia. reflexivity.
Qed.

Lemma getitem_nat {A} (l : list A) (k : nat) (x : A) :
  l !! k = Some x -> Py.getitem l (Z.of_nat k) = Ok x.
Proof.
  intros Hx. unfold Py.getitem.
  rewrite index_in_range by (apply lookup_lt_Some in Hx; lia).
  rewrite Nat2Z.id, Hx. reflexivity.
Qed.

Lemma getitem_zero {A} (l : list A) (x : A) :
  l !! 0%nat = Some x -> Py.getitem l 0 = Ok x.
Proof. apply (getitem_nat l 0). Qed.

Lemma getitem_nat_inv {A} (l : list A) (k : nat) (x : A) :
  Py.getitem l (Z.of_nat k) = Ok x -> l !! k = Some x.
Proof.
  intros H. apply getitem_Ok_inv in H as (j & Hj & Hx).
  pose proof (index_Some_lt _ _ _ Hj) as Hlt.
  destruct (Z.lt_ge_cases (Z.of_nat k) (Z.of_nat (length l))) as [Hk|Hk].
  - rewrite index_in_range in Hj by lia. rewrite Nat2Z.id in Hj.
    injection Hj as ->. exact Hx.
  - rewrite index_out_of_range in Hj by lia. discriminate.
Qed.

Lemma getitem_fmap {A B} (f : A -> B) (l : list A) (i : Z) (x : A) :
  Py.getitem l i = Ok x -> Py.getitem (f <$> l) i = Ok (f x).
Proof.
  intros H. apply getitem_Ok_inv in H as (k & Hk & Hx).
  unfold Py.getitem. rewrite length_fmap, Hk, list_lookup_fmap, Hx.
  reflexivity.
Qed.

Lemma clamp_in_range (n : nat) (i : Z) :
  0 <= i <= Z.of_nat n -> Py.clamp n i = Z.to_nat i.
Proof.
  intros Hi. unfold Py.clamp. destruct (Z.ltb_spec i 0); [lia|].
  f_equal. lia.
Qed.

Lemma slice_in_range {A} (l : list A) (a b : Z) :
  0 <= a <= b -> b <= Z.of_nat (length l) ->
  Py.slice l a b = take (Z.to_nat (b - a)) (drop (Z.to_nat a) l).
Proof.
  intros Hab Hb. unfold Py.slice.
  rewrite !clamp_in_range by lia. f_equal. lia.
Qed.

Lemma length_slice {A} (l : list A) (a b : Z) :
  0 <= a <= b -> b <= Z.of_nat (length l) ->
  Z.of_nat (length (Py.slice l a b)) = b - a.
Proof.
  intros Hab Hb. rewrite slice_in_range by lia.
  rewrite length_take, length_drop. lia.
Qed.

Lemma lookup_slice {A} (l : list A) (a b : Z) (k : nat) :
  0 <= a <= b -> b <= Z.of_nat (length l) -> Z.of_nat k < b - a ->
  Py.slice l a b !! k = l !! (Z.to_nat a + k)%nat.
Proof.
  intros Hab Hb Hk. rewrite slice_in_range by lia.
  rewrite lookup_take_lt by lia. apply lookup_drop.
Qed.

(** Adjacent slices make up the slice of their union: no sample is lost
    and none is repeated. *)
Lemma slice_app {A} (l : list A) (a b c : Z) :
  0 <= a <= b -> b <= c -> c <= Z.of_nat (length l) ->
  Py.slice l a b ++ Py.slice l b c = Py.slice l a c.
Proof.
  intros Hab Hbc Hc. rewrite !slice_in_range by lia.
  replace (Z.to_nat (c - a)) with (Z.to_nat (b - a) + Z.to_nat (c - b))%nat by lia.
  rewrite <- take_take_drop, drop_drop.
  do 3 f_equal. lia.
Qed.

Lemma slice_sublist {A} (P : A -> Prop) (l : list A) (a b : Z) :
  Forall P l -> Forall P (Py.slice l a b).
Proof. intros H. unfold Py.slice. apply Forall_take, Forall_drop, H. Qed.

(** ** Arrays *)

Lemma rectangular_isub_row (L : nat) (t : Np.ndarray) (i : nat) (v : Q) :
  Np.rectangular L t -> Np.rectangular L (Np.isub_row t i v).
Proof.
  unfold Np.rectangular, Np.isub_row. intros H.
  apply Forall_alter; [exact H|].
  intros row _ Hrow. rewrite length_fmap. exact Hrow.
Qed.

Lemma rectangular_columns (L : nat) (t : Np.ndarray) (a b : Z) :
  Np.rectangular L t -> 0 <= a <= b -> b <= Z.of_nat L ->
  Np.rectangular (Z.to_nat (b - a)) (Np.columns t a b).
Proof.
  unfold Np.rectangular, Np.columns. intros H Hab Hb.
  apply Forall_fmap. eapply Forall_impl; [exact H|].
  intros row Hrow. simpl in *.
  assert (b <= Z.of_nat (length row)) as Hb' by lia.
  pose proof (length_slice row a b Hab Hb') as Hlen. lia.
Qed.

(** Segments cut at [a], [b] and [c] tile the span from [a] to [c], channel
    by channel. *)
Lemma columns_tile (L : nat) (t : Np.ndarray) (a b c : Z) :
  Np.rectangular L t -> 0 <= a <= b -> b <= c -> c <= Z.of_nat L ->
  zip_with app (Np.columns t a b) (Np.columns t b c) = Np.columns t a c.
Proof.
  intros Hrect Hab Hbc Hc. unfold Np.columns.
  induction Hrect as [|row t' Hrow _ IH]; [reflexivity|].
  rewrite !fmap_cons. simpl. f_equal; [apply slice_app; lia | exact IH].
Qed.

Lemma shape1_rectangular (L : nat) (t : Np.ndarray) (row : list Q) :
  Np.rectangular L t -> t !! 0%nat = Some row ->
  Np.shape1 t = Ok (Z.of_nat L).
Proof.
  destruct t as [|r t']; [discriminate|].
  intros H _. apply Forall_cons in H as [<- _]. reflexivity.
Qed.

Lemma getitem2_lookup (t : Np.ndarray) (c : nat) (row : list Q) (j : Z) :
  t !! c = Some row -> Np.getitem2 t (Z.of_nat c) j = Py.getitem row j.
Proof.
  intros Hrow. unfold Np.getitem2. rewrite (getitem_nat _ _ _ Hrow). reflexivity.
Qed.

(** After [t[c, :] -= t[c, j]] the entry [t[c, j]] is the difference of a
    number with itself. *)
Lemma getitem2_isub_row_same (t : Np.ndarray) (c : nat) (j : Z) (v : Q) :
  Np.getitem2 t (Z.of_nat c) j = Ok v ->
  Np.getitem2 (Np.isub_row t c v) (Z.of_nat c) j = Ok (v - v)%Q.
Proof.
  unfold Np.getitem2. intros H.
  destruct (Py.getitem t (Z.of_nat c)) as [row|] eqn:Hrow; [|discriminate].
  simpl in H. apply getitem_nat_inv in Hrow.
  assert (Np.isub_row t c v !! c = Some ((fun x => x - v)%Q <$> row)) as Hrow'.
  { unfold Np.isub_row. rewrite list_lookup_alter_eq, Hrow. reflexivity. }
  rewrite (getitem_nat _ _ _ Hrow'). simpl.
  apply (getitem_fmap (fun x => x - v)%Q), H.
Qed.

Lemma getitem2_isub_row_other (t : Np.ndarray) (c c' : nat) (j : Z) (v : Q) :
  c <> c' ->
  Np.getitem2 (Np.isub_row t c' v) (Z.of_nat c) j = Np.getitem2 t (Z.of_nat c) j.
Proof.
  intros Hne. unfold Np.getitem2, Py.getitem, Np.isub_row.
  rewrite length_alter.
  destruct (Py.index (length t) (Z.of_nat c)) as [k|] eqn:Hk; [|reflexivity].
  assert (k = c) as ->.
  { pose proof (index_Some_lt _ _ _ Hk).
    destruct (Z.lt_ge_cases (Z.of_nat c) (Z.of_nat (length t))).
    - rewrite index_in_range in Hk by lia. rewrite Nat2Z.id in Hk. congruence.
    - rewrite index_out_of_range in Hk by lia. discriminate. }
  rewrite list_lookup_alter_ne by congruence. reflexivity.
Qed.

Lemma column_rectangular (L : nat) (t : Np.ndarray) (j : Z) :
  Np.rectangular L t -> - Z.of_nat L <= j < Z.of_nat L ->
  exists col, Np.column t j = Ok col /\ length col = length t.
Proof.
  intros H Hj. induction H as [|row t' Hrow _ IH]; simpl.
  - exists []. auto.
  - destruct (index_valid (length row) j) as [k Hk]; [lia|].
    destruct (getitem_index row j k Hk) as (x & _ & ->).
    destruct IH as (col & -> & Hlen). simpl.
    exists (x :: col). simpl. auto.
Qed.

(** ** Sub-trajectory extraction *)

Lemma gait_sub_steps_segment (o : Trajectory) (i N a b : Z) (L : nat)
    (row0 : list Q) :
  Np.rectangular L (trajectory o) ->
  trajectory o !! 0%nat = Some row0 ->
  Py.getitem (split_points o) i = Ok a ->
  Py.getitem (split_points o) (i + N) = Ok b ->
  0 <= a < b -> b <= Z.of_nat L ->
  exists x0,
    row0 !! Z.to_nat a = Some x0 /\
    _get_traj_gait_sub_steps o i N
    = Ok (Np.isub_row (Np.columns (trajectory o) a b) 0 x0).
Proof.
  intros Hrect Hrow0 Ha Hb Hab HbL.
  assert (length row0 = L) as Hlen.
  { eapply Forall_lookup_1 in Hrect; [exact Hrect | exact Hrow0]. }
  destruct (lookup_lt_is_Some_2 row0 (Z.to_nat a)) as [x0 Hx0]; [lia|].
  exists x0. split; [exact Hx0|].
  unfold _get_traj_gait_sub_steps. rewrite Ha, Hb. simpl.
  rewrite (getitem_zero _ _ Hrow0). simpl.
  replace a with (Z.of_nat (Z.to_nat a)) at 1 by lia.
  rewrite (getitem_nat _ _ _ Hx0). reflexivity.
Qed.

(** ** Reset *)

Lemma getitem2_rectangular (L : nat) (t : Np.ndarray) (c : nat) (row : list Q)
    (j : Z) :
  Np.rectangular L t -> t !! c = Some row -> - Z.of_nat L <= j < Z.of_nat L ->
  exists v, Np.getitem2 t (Z.of_nat c) j = Ok v.
Proof.
  intros Hrect Hrow Hj. rewrite (getitem2_lookup _ _ _ _ Hrow).
  assert (length row = L) as Hlen.
  { eapply Forall_lookup_1 in Hrect; [exact Hrect | exact Hrow]. }
  destruct (index_valid (length row) j) as [k Hk]; [lia|].
  destruct (getitem_index row j k Hk) as (x & _ & Hx). eauto.
Qed.

Lemma reset_trajectory_explicit (a b s : Z) (w : World) :
  reset_trajectory a b (Some s) w
  = offset_and_read a b
      (on_self (set_subtraj_step_no s) (on_self (set_x_dist 0) w)).
Proof. reflexivity. Qed.

Lemma reset_trajectory_random (a b L : Z) (w : World) :
  Np.shape1 (subtraj (self w)) = Ok L ->
  reset_trajectory a b None w
  = offset_and_read a b
      (on_self
         (set_subtraj_step_no
            (Py.int (fst (Np.rand (np_random w)) * (inject_Z L * (45 # 100)))))
         (mkWorld (set_x_dist 0 (self w)) (snd (Np.rand (np_random w)))
            (sub_trajectory_calls w))).
Proof.
  intros HL. unfold reset_trajectory, bind, modify, np_random_rand, traj_length,
    gets, lift. simpl. rewrite HL. reflexivity.
Qed.

Lemma offset_and_read_ok (a b : Z) (w : World) (L : nat) :
  Np.rectangular L (trajectory (self w)) ->
  (2 <= length (trajectory (self w)))%nat ->
  - Z.of_nat L <= subtraj_step_no (self w) < Z.of_nat L ->
  exists qpos qvel t,
    offset_and_read a b w = (Ok (qpos, qvel), on_self (set_subtraj t) w) /\
    Np.rectangular L t /\
    length t = length (trajectory (self w)) /\
    zero_at t 0 (subtraj_step_no (self w)) /\
    zero_at t 1 (subtraj_step_no (self w)).
Proof.
  intros Hrect Hlen Hs.
  set (s := subtraj_step_no (self w)) in *.
  set (t0 := trajectory (self w)) in *.
  destruct (lookup_lt_is_Some_2 t0 0) as [row0 Hrow0]; [lia|].
  destruct (lookup_lt_is_Some_2 t0 1) as [row1 Hrow1]; [lia|].
  destruct (getitem2_rectangular L t0 0 row0 s Hrect Hrow0 Hs) as [x0 Hx0].
  destruct (getitem2_rectangular L t0 1 row1 s Hrect Hrow1 Hs) as [y0 Hy0].
  set (t1 := Np.isub_row t0 0 x0).
  set (t2 := Np.isub_row t1 1 y0).
  assert (Np.getitem2 t1 (Z.of_nat 1) s = Ok y0) as Hy1.
  { unfold t1. rewrite getitem2_isub_row_other by lia. exact Hy0. }
  assert (Np.rectangular L t2) as Hrect2.
  { apply rectangular_isub_row, rectangular_isub_row, Hrect. }
  destruct (column_rectangular L (Py.slice t2 0 a) s
              (slice_sublist _ _ _ _ Hrect2) Hs) as (qpos & Hqpos & _).
  destruct (column_rectangular L (Py.slice t2 a (a + b)) s
              (slice_sublist _ _ _ _ Hrect2) Hs) as (qvel & Hqvel & _).
  exists qpos, qvel, t2. repeat split.
  - unfold offset_and_read, bind, modify, gets, lift, ret. simpl.
    fold t0. fold s. change 0 with (Z.of_nat 0) at 1. rewrite Hx0. simpl.
    fold t1. change 1 with (Z.of_nat 1) at 1. rewrite Hy1. simpl.
    fold t2. rewrite Hqpos. simpl. rewrite Hqvel. reflexivity.
  - exact Hrect2.
  - unfold t2, t1, Np.isub_row. rewrite !length_alter. reflexivity.
  - exists (x0 - x0)%Q. split; [|ring].
    unfold t2. change 0 with (Z.of_nat 0).
    rewrite getitem2_isub_row_other by lia.
    apply getitem2_isub_row_same, Hx0.
  - exists (y0 - y0)%Q. split; [|ring].
    apply (getitem2_isub_row_same t1 1), Hy1.
Qed.

(** [offset_and_read] never touches the cursor, the distance, the stored
    trajectory, the generator or the call counter, whether it returns or
    raises. *)
Lemma offset_and_read_frame (a b : Z) (w : World) :
  let w' := snd (offset_and_read a b w) in
  subtraj_step_no (self w') = subtraj_step_no (self w) /\
  x_dist (self w') = x_dist (self w) /\
  trajectory (self w') = trajectory (self w) /\
  np_random w' = np_random w /\
  sub_trajectory_calls w' = sub_trajectory_calls w.
Proof.
  unfold offset_and_read, bind, modify, gets, lift, ret. simpl.
  destruct (Np.getitem2 _ 0 _); simpl; [|tauto].
  destruct (Np.getitem2 _ 1 _); simpl; [|tauto].
  destruct (Np.column _ _); simpl; [|tauto].
  destruct (Np.column _ _); simpl; tauto.
Qed.

(** *** The random cursor *)

Lemma rand_unit_interval (g : Np.RandomState) :
  (0 <= fst (Np.rand g) < 1)%Q.
Proof.
  unfold Np.rand. simpl.
  pose proof (Z.mod_pos_bound (Np.stream g (Np.position g)) (2 ^ 53)) as Hm.
  assert (0 < 2 ^ 53) as Hpos by reflexivity. specialize (Hm Hpos).
  unfold Qle, Qlt. simpl. change (Z.pos (2 ^ 53)) with (2 ^ 53). lia.
Qed.

Lemma int_nonneg (q : Q) : (0 <= q)%Q -> Py.int q = Qfloor q.
Proof.
  destruct q as [n d]. unfold Qle, Py.int, Qfloor. simpl. intros Hn.
  apply Z.quot_div_nonneg; lia.
Qed.

Lemma cursor_range (r : Q) (L : Z) :
  (0 <= r < 1)%Q -> 0 < L ->
  let c := Py.int (r * (inject_Z L * (45 # 100))) in
  0 <= c /\ (inject_Z c < (45 # 100) * inject_Z L)%Q.
Proof.
  intros [Hr0 Hr1] HL. simpl.
  set (y := (inject_Z L * (45 # 100))%Q).
  assert (0 < y)%Q as Hy.
  { unfold y. apply Qmult_lt_0_compat; [|reflexivity].
    change 0%Q with (inject_Z 0). rewrite <- Zlt_Qlt. exact HL. }
  assert (0 <= r * y)%Q as Hq0.
  { apply Qmult_le_0_compat; [exact Hr0 | apply Qlt_le_weak, Hy]. }
  assert (r * y < y)%Q as Hq1.
  { pose proof (Qmult_lt_compat_r r 1 y Hy Hr1) as H.
    rewrite Qmult_1_l in H. exact H. }
  rewrite int_nonneg by exact Hq0. split.
  - change 0 with (Qfloor 0). apply Qfloor_resp_le, Hq0.
  - eapply Qle_lt_trans; [apply Qfloor_le|].
    eapply Qlt_le_trans; [exact Hq1|]. unfold y. rewrite Qmult_comm.
    apply Qle_refl.
Qed.

Lemma cursor_below_length (r : Q) (L : Z) :
  (0 <= r < 1)%Q -> 0 < L ->
  0 <= Py.int (r * (inject_Z L * (45 # 100))) < L.
Proof.
  intros Hr HL. destruct (cursor_range r L Hr HL) as [H0 H1]. split; [exact H0|].
  rewrite Zlt_Qlt. eapply Qlt_le_trans; [exact H1|].
  assert (0 < inject_Z L)%Q as HLq.
  { change 0%Q with (inject_Z 0). rewrite <- Zlt_Qlt. exact HL. }
  pose proof (Qmult_le_compat_r (45 # 100) 1 (inject_Z L)) as H.
  rewrite Qmult_1_l in H. apply H; [discriminate | apply Qlt_le_weak, HLq].
Qed.

(** *** The playback cursor *)

Lemma get_next_sample_inside (o : Trajectory) (g : Np.RandomState) (k : nat)
    (L : nat) (row : list Q) :
  Np.rectangular L (subtraj o) -> subtraj o !! 0%nat = Some row ->
  0 <= subtraj_step_no o < Z.of_nat L ->
  exists sample,
    Np.column (subtraj o) (subtraj_step_no o) = Ok sample /\
    get_next_sample (mkWorld o g k)
    = (Ok sample, mkWorld (set_subtraj_step_no (subtraj_step_no o + 1) o) g k).
Proof.
  intros Hrect Hrow Hc.
  destruct (column_rectangular L (subtraj o) (subtraj_step_no o) Hrect)
    as (sample & Hsample & _); [lia|].
  exists sample. split; [exact Hsample|].
  unfold get_next_sample, traj_length, bind, gets, lift, modify, ret. simpl.
  rewrite (shape1_rectangular L _ row Hrect Hrow). simpl.
  destruct (Z.leb_spec (Z.of_nat L) (subtraj_step_no o)); [lia|]. simpl.
  rewrite Hsample. reflexivity.
Qed.

Lemma get_next_samples_inside (n : nat) :
  forall (o : Trajectory) (g : Np.RandomState) (k : nat) (L : nat)
         (row : list Q),
    Np.rectangular L (subtraj o) -> subtraj o !! 0%nat = Some row ->
    0 <= subtraj_step_no o -> subtraj_step_no o + Z.of_nat n <= Z.of_nat L ->
    exists samples,
      length samples = n /\
      (forall (j : nat) (x : list Q),
         samples !! j = Some x ->
         Np.column (subtraj o) (subtraj_step_no o + Z.of_nat j) = Ok x) /\
      get_next_samples n (mkWorld o g k)
      = (Ok samples,
         mkWorld (set_subtraj_step_no (subtraj_step_no o + Z.of_nat n) o) g k).
Proof.
  induction n as [|n IH]; intros o g k L row Hrect Hrow Hc0 Hc1.
  - exists []. split; [reflexivity|]. split; [intros j x; discriminate|].
    simpl. unfold ret. rewrite Z.add_0_r. destruct o; reflexivity.
  - destruct (get_next_sample_inside o g k L row Hrect Hrow) as (x & Hcol & Hx);
      [lia|].
    destruct (IH (set_subtraj_step_no (subtraj_step_no o + 1) o) g k L row)
      as (xs & Hlen & Hcols & Hxs); simpl; try assumption; try lia.
    exists (x :: xs). split; [simpl; congruence|]. split.
    + intros [|j] y; simpl.
      * intros [= <-]. rewrite Z.add_0_r. exact Hcol.
      * intros Hy. apply Hcols in Hy. simpl in Hy.
        rewrite <- Hy. f_equal. lia.
    + change (get_next_samples (S n)) with
        (x <- get_next_sample ;; xs <- get_next_samples n ;; ret (x :: xs)).
      unfold bind at 1. rewrite Hx. unfold bind at 1. rewrite Hxs.
      unfold ret, set_subtraj_step_no. simpl. do 3 f_equal. lia.
Qed.

(** The call made with the cursor at the end of the sub-trajectory enters
    [get_next_sub_trajectory]; that method adds the last value of channel 0
    to the distance and then calls [reset_trajectory] without the two
    arguments it requires. *)
Lemma get_next_sample_at_end (o : Trajectory) (g : Np.RandomState) (k : nat)
    (L : nat) (row : list Q) (last : Q) :
  Np.rectangular L (subtraj o) -> subtraj o !! 0%nat = Some row ->
  subtraj_step_no o = Z.of_nat L ->
  Py.getitem row (-1) = Ok last ->
  get_next_sample (mkWorld o g k)
  = (Raise TypeError, mkWorld (set_x_dist (x_dist o + last) o) g (S k)).
Proof.
  intros Hrect Hrow Hc Hlast.
  unfold get_next_sample, traj_length, bind, gets, lift, modify, ret. simpl.
  rewrite (shape1_rectangular L _ row Hrect Hrow). simpl.
  rewrite Hc, Z.leb_refl.
  unfold get_next_sub_trajectory, ghost_enter_sub_trajectory, bind, gets, lift,
    modify, ret. simpl.
  rewrite (getitem_zero _ _ Hrow). simpl. rewrite Hlast. reflexivity.
Qed.

(** ** Running a sequence of steps *)

Lemma bind_ok {S A B} (m : M S A) (k : A -> M S B) (s s' : S) (a : A) :
  m s = (Ok a, s') -> bind m k s = k a s'.
Proof. intros H. unfold bind. rewrite H. reflexivity. Qed.

Lemma bind_Ok_inv {S A B} (m : M S A) (k : A -> M S B) (s s' : S) (b : B) :
  bind m k s = (Ok b, s') ->
  exists a s1, m s = (Ok a, s1) /\ k a s1 = (Ok b, s').
Proof.
  unfold bind. destruct (m s) as [[a|e] s1]; [eauto | discriminate].
Qed.

Lemma read_only_ret {S A} (a : A) : read_only (ret (S := S) a).
Proof. intros s. reflexivity. Qed.

Lemma read_only_raise {S A} (e : exn) : read_only (raise (S := S) (A := A) e).
Proof. intros s. reflexivity. Qed.

Lemma read_only_lift {S A} (r : res A) : read_only (lift (S := S) r).
Proof. intros s. reflexivity. Qed.

Lemma read_only_gets {S A} (f : S -> A) : read_only (gets f).
Proof. intros s. reflexivity. Qed.

Lemma read_only_bind {S A B} (m : M S A) (k : A -> M S B) :
  read_only m -> (forall a, read_only (k a)) -> read_only (bind m k).
Proof.
  intros Hm Hk s. unfold bind. specialize (Hm s).
  destruct (m s) as [[a|e] s1]; simpl in Hm; subst s1; [apply Hk | reflexivity].
Qed.

(** ** The keys list *)

Lemma length_remove (x : string) (ks ks' : list string) :
  Py.remove x ks = Ok ks' -> length ks = S (length ks').
Proof.
  revert ks'. induction ks as [|y ks IH]; intros ks'; simpl; [discriminate|].
  destruct (decide (x = y)); [intros [= <-]; reflexivity|].
  destruct (Py.remove x ks) as [r|]; simpl; [|discriminate].
  intros [= <-]. simpl. f_equal. apply IH. reflexivity.
Qed.

Lemma length_remove_each (ignore_keys ks ks' : list string) :
  remove_each ignore_keys ks = Ok ks' ->
  length ks = (length ignore_keys + length ks')%nat.
Proof.
  revert ks. induction ignore_keys as [|ik rest IH]; intros ks; simpl.
  - intros [= <-]. reflexivity.
  - destruct (Py.remove ik ks) as [r|] eqn:Hr; simpl; [|discriminate].
    intros H. apply IH in H. apply length_remove in Hr. lia.
Qed.

Lemma remove_ignored_ok (keys : loc) (ignore_keys : list string) :
  forall (h : store) (ks ks' : list string),
    h !! keys = Some ks ->
    remove_each ignore_keys ks = Ok ks' ->
    remove_ignored keys ignore_keys h = (Ok tt, <[keys := ks']> h).
Proof.
  induction ignore_keys as [|ik rest IH]; intros h ks ks' Hks Hrm; simpl in *.
  - injection Hrm as <-. unfold ret. rewrite insert_id by exact Hks. reflexivity.
  - destruct (Py.remove ik ks) as [r|] eqn:Hr; simpl in Hrm; [|discriminate].
    unfold bind, gets, lift, modify. simpl.
    rewrite (lookup_total_correct _ _ _ Hks), Hr. simpl.
    rewrite (IH (<[keys := r]> h) r ks'); [| apply lookup_insert_eq | exact Hrm].
    rewrite insert_insert_eq. reflexivity.
Qed.

Lemma load_global_undefined (name : string) :
  load_global name = Raise NameError.
Proof. unfold load_global, module_globals. rewrite lookup_empty. reflexivity. Qed.

(** ** Resampling *)

Lemma round_proper (x y : Q) : (x == y)%Q -> Py.round x = Py.round y.
Proof.
  intros Hxy. unfold Py.round. rewrite (Qfloor_comp _ _ Hxy).
  assert (x - inject_Z (Qfloor y) == y - inject_Z (Qfloor y))%Q as H
    by (rewrite Hxy; reflexivity).
  rewrite (Qcompare_comp _ _ H _ _ (Qeq_refl (1 # 2))). reflexivity.
Qed.

Lemma length_linspace0 (stop : Q) (num : Z) (xs : list Q) :
  Np.linspace0 stop num = Ok xs -> length xs = Z.to_nat num.
Proof.
  unfold Np.linspace0. destruct (Z.ltb_spec num 0); [discriminate|].
  destruct (Z.eqb_spec num 1) as [->|_]; intros [= <-]; [reflexivity|].
  rewrite length_fmap, length_seq. reflexivity.
Qed.

Lemma linspace0_raises (stop : Q) (num : Z) :
  num < 0 -> Np.linspace0 stop num = Raise ValueError.
Proof.
  intros H. unfold Np.linspace0. destruct (Z.ltb_spec num 0); [reflexivity | lia].
Qed.

(** The grid never leaves the interval between its end points. *)
Lemma linspace0_bounds (stop : Q) (num : Z) :
  (0 <= stop)%Q -> 0 <= num ->
  exists xs, Np.linspace0 stop num = Ok xs /\
             Forall (fun x => 0 <= x <= stop)%Q xs.
Proof.
  intros Hstop Hnum. unfold Np.linspace0.
  destruct (Z.ltb_spec num 0); [lia|].
  destruct (Z.eqb_spec num 1) as [->|Hne].
  - eexists. split; [reflexivity|]. repeat constructor.
    + apply Qle_refl.
    + exact Hstop.
  - eexists. split; [reflexivity|].
    apply Forall_fmap, Forall_forall. intros j Hj. simpl.
    apply elem_of_seq in Hj. destruct Hj as [_ Hj]. simpl in Hj.
    assert (0 < inject_Z (num - 1))%Q as Hd.
    { change 0%Q with (inject_Z 0). rewrite <- Zlt_Qlt. lia. }
    assert (0 <= inject_Z (Z.of_nat j))%Q as Hj0.
    { change 0%Q with (inject_Z 0). rewrite <- Zle_Qle. lia. }
    assert (inject_Z (Z.of_nat j) <= inject_Z (num - 1))%Q as Hj1.
    { rewrite <- Zle_Qle. lia. }
    assert (0 <= stop / inject_Z (num - 1))%Q as Hstep.
    { apply Qle_shift_div_l; [exact Hd|]. rewrite Qmult_0_l. exact Hstop. }
    split.
    + apply Qmult_le_0_compat; assumption.
    + eapply Qle_trans.
      * apply Qmult_le_compat_r; [exact Hj1 | exact Hstep].
      * rewrite Qmult_div_r; [apply Qle_refl|].
        intros H0. rewrite H0 in Hd. discriminate.
Qed.

Lemma round_nonneg (x : Q) : (0 <= x)%Q -> 0 <= Py.round x.
Proof.
  intros Hx. unfold Py.round.
  assert (0 <= Qfloor x) as Hfl.
  { change 0 with (Qfloor 0). apply Qfloor_resp_le, Hx. }
  destruct (Qcompare _ _); [destruct (Z.even _)| |]; lia.
Qed.

Lemma forallb_of_Forall {A} (P : A -> Prop) (f : A -> bool) (l : list A) :
  (forall x, P x -> f x = true) -> Forall P l -> forallb f l = true.
Proof.
  intros Hf H. induction H as [|x l Hx _ IH]; simpl; [reflexivity|].
  rewrite (Hf x Hx), IH. reflexivity.
Qed.

(** *** The constructor, step by step *)

Lemma init_goal_step (keys : loc) (archive : npz) (h : store) (ks : list string) :
  h !! keys = Some ks ->
  (if npz_mem "goal" archive then list_iadd keys ["goal"%string] else ret tt) h
  = (Ok tt, <[keys := keys_with_goal archive ks]> h).
Proof.
  intros Hks. unfold keys_with_goal.
  destruct (npz_mem "goal" archive).
  - unfold list_iadd, modify. rewrite (lookup_total_correct _ _ _ Hks). reflexivity.
  - unfold ret. rewrite insert_id by exact Hks. reflexivity.
Qed.

Lemma init_feet_step_skip (keys : loc) (archive : npz) (h : store) :
  npz_mem "rel_feet_xpos_r" archive = false ->
  (if npz_mem "rel_feet_xpos_r" archive then
     v <- lift (load_global "FOOT_KEYS") ;;
     match v with
     | PyKeys l => list_iadd keys l
     | PyFloat _ => raise TypeError
     end
   else ret tt) h
  = (Ok tt, h).
Proof. intros ->. reflexivity. Qed.

(** Runs the three steps of [__init__] that act on the keys list. *)
Ltac init_keys_steps Hks Hfeet Hrm :=
  unfold __init__;
  rewrite (bind_ok _ _ _ _ _ (init_goal_step _ _ _ _ Hks));
  rewrite (bind_ok _ _ _ _ _ (init_feet_step_skip _ _ _ Hfeet));
  rewrite (bind_ok _ _ _ _ _
             (remove_ignored_ok _ _ _ _ _ (lookup_insert_eq _ _ _) Hrm));
  rewrite insert_insert_eq.

Ltac solve_read_only :=
  repeat first
    [ apply read_only_ret | apply read_only_raise | apply read_only_lift
    | apply read_only_gets
    | apply read_only_bind; [|intros]
    | match goal with
      | |- read_only (match ?x with _ => _ end) => destruct x
      end ].

Section ResamplingProperties.

Variable cubic_spline : list Q -> Q -> Q.

Lemma interpolate_returns (traj : Np.ndarray) (f : Q) (L : Z) :
  Np.shape1 traj = Ok L -> 4 <= L -> 0 <= Py.round (inject_Z L * f) ->
  exists x_new,
    length x_new = Z.to_nat (Py.round (inject_Z L * f)) /\
    _interpolate_trajectory cubic_spline traj f
    = Ok (resampled_on cubic_spline x_new traj).
Proof.
  intros HL H4 Hnum. unfold _interpolate_trajectory. rewrite HL. simpl.
  destruct (linspace0_bounds (inject_Z (L - 1)) (Py.round (inject_Z L * f)))
    as (xs & Hxs & Hin); [| exact Hnum |].
  { change 0%Q with (inject_Z 0). rewrite <- Zle_Qle. lia. }
  exists xs. split; [apply (length_linspace0 _ _ _ Hxs)|].
  rewrite Hxs. simpl. unfold interp1d_cubic.
  destruct (Z.ltb_spec L 4); [lia|].
  assert (forallb (fun x => Qle_bool 0 x && Qle_bool x (inject_Z (L - 1))) xs
          = true) as ->; [|reflexivity].
  eapply forallb_of_Forall; [|exact Hin].
  intros x [Hx0 Hx1]. apply andb_true_intro.
  split; apply Qle_bool_iff; assumption.
Qed.

Lemma interpolate_raises (traj : Np.ndarray) (f : Q) (L : Z) :
  Np.shape1 traj = Ok L -> L < 4 \/ Py.round (inject_Z L * f) < 0 ->
  _interpolate_trajectory cubic_spline traj f = Raise ValueError.
Proof.
  intros HL Hbad. unfold _interpolate_trajectory. rewrite HL. simpl.
  destruct (Z.lt_ge_cases (Py.round (inject_Z L * f)) 0) as [Hneg|Hnum].
  - rewrite linspace0_raises by exact Hneg. reflexivity.
  - destruct Hbad as [H4|]; [|lia].
    unfold Np.linspace0. destruct (Z.ltb_spec (Py.round (inject_Z L * f)) 0); [lia|].
    unfold interp1d_cubic.
    destruct (Z.eqb_spec (Py.round (inject_Z L * f)) 1); simpl;
      destruct (Z.ltb_spec L 4); try lia; reflexivity.
Qed.

Lemma interpolate_exceptions (traj : Np.ndarray) (f : Q) (e : exn) :
  _interpolate_trajectory cubic_spline traj f = Raise e ->
  e = IndexError \/ e = ValueError.
Proof.
  unfold _interpolate_trajectory.
  destruct (Np.shape1 traj) as [L|e0] eqn:HL; simpl.
  - unfold Np.linspace0, interp1d_cubic.
    repeat (match goal with |- context [if ?b then _ else _] => destruct b end;
            simpl);
      intros [= <-]; auto.
  - destruct traj; [|discriminate]. injection HL as <-. intros [= <-]. auto.
Qed.


(** *** The constructor as a whole *)

(** Once the loop over [ignore_keys] is over, the store holds the final
    keys list, whatever the outcome of the construction. *)
Lemma init_store (keys : loc) (archive : npz) (dt cdt : Q)
    (ignore_keys : list string) (h : store) (ks ks' : list string) :
  h !! keys = Some ks ->
  npz_mem "rel_feet_xpos_r" archive = false ->
  remove_each ignore_keys (keys_with_goal archive ks) = Ok ks' ->
  snd (__init__ cubic_spline keys archive dt cdt ignore_keys h)
  = <[keys := ks']> h.
Proof.
  intros Hks Hfeet Hrm. init_keys_steps Hks Hfeet Hrm.
  match goal with |- snd (?m _) = _ => assert (read_only m) as Hro end.
  { solve_read_only. }
  apply Hro.
Qed.

(** What a successful construction fixes. *)
Lemma init_Ok_inv (kref : loc) (archive : npz) (dt cdt : Q)
    (ignore_keys : list string) (h h' : store) (o : Trajectory) :
  __init__ cubic_spline kref archive dt cdt ignore_keys h = (Ok o, h') ->
  keys o = kref /\ _trajectory_files o = archive /\
  subtraj o = trajectory o /\ subtraj_step_no o = 0 /\ x_dist o = 0%Q /\
  Qeq_bool dt cdt = false.
Proof.
  unfold __init__. intros H.
  repeat match type of H with
         | bind _ _ _ = (Ok _, _) =>
             let a := fresh "a" in let s := fresh "s" in let Hm := fresh "Hm" in
             apply bind_Ok_inv in H as (a & s & Hm & H)
         end.
  match type of H with
  | (let '(_, _) := ?p in _) _ = _ => destruct p as [t sp]
  end.
  injection H as <- <-. simpl. repeat split.
  destruct (Qeq_bool dt cdt) eqn:Heq; [|reflexivity].
  match goal with
  | Hx : (if negb true then _ else _) _ = _ |- _ =>
      simpl in Hx; apply bind_Ok_inv in Hx as (v & s' & Hv & _)
  end.
  unfold lift in Hv. rewrite load_global_undefined in Hv. discriminate.
Qed.

Lemma array_rectangular (L : nat) (rows : list (list Q)) :
  Np.rectangular L rows -> Np.array rows = Ok rows.
Proof.
  intros H. destruct rows as [|r rows']; [reflexivity|].
  unfold Np.array.
  assert (Np.same_lengthb (length r) (r :: rows') = true) as ->; [|reflexivity].
  pose proof H as H'. apply Forall_cons in H' as [Hr _].
  unfold Np.same_lengthb. eapply forallb_of_Forall; [|exact H].
  intros row Hrow. simpl in *. apply Nat.eqb_eq. congruence.
Qed.

Lemma positive_quotient_divisor (dt cdt : Q) :
  (0 < dt / cdt)%Q -> Qeq_bool cdt 0 = false.
Proof.
  intros Hpos. destruct (Qeq_bool cdt 0) eqn:H0; [|reflexivity].
  apply Qeq_bool_iff in H0. exfalso.
  assert (dt / cdt == 0)%Q as Hz.
  { unfold Qdiv. rewrite H0. unfold Qinv. simpl. apply Qmult_0_r. }
  rewrite Hz in Hpos. discriminate.
Qed.

Lemma sampling_factor_quotient (dt cdt : Q) :
  (sampling_factor dt cdt == dt / cdt)%Q.
Proof. unfold sampling_factor. rewrite Qmult_1_l. reflexivity. Qed.

(** Construction with different time steps: the trajectory is resampled and
    the split points are rescaled. *)
Lemma init_resamples (kref : loc) (archive : npz) (dt cdt : Q)
    (ignore_keys : list string) (h : store) (ks ks' : list string)
    (traj : Np.ndarray) (L : nat) :
  h !! kref = Some ks ->
  npz_mem "rel_feet_xpos_r" archive = false ->
  remove_each ignore_keys (keys_with_goal archive ks) = Ok ks' ->
  load_channels archive ks' = Ok traj ->
  traj <> [] -> Np.rectangular L traj -> (4 <= L)%nat ->
  ~ (dt == cdt)%Q -> (0 < dt / cdt)%Q ->
  exists x_new,
    length x_new = Z.to_nat (Py.round (inject_Z (Z.of_nat L) * (dt / cdt))) /\
    _interpolate_trajectory cubic_spline traj (sampling_factor dt cdt)
    = Ok (resampled_on cubic_spline x_new traj) /\
    __init__ cubic_spline kref archive dt cdt ignore_keys h
    = (Ok (mkTrajectory archive kref (resampled_on cubic_spline x_new traj)
             ((fun p => Np.astype_int32
                          (Py.round (inject_Z p * sampling_factor dt cdt)))
                <$> initial_split_points archive L)
             (Z.of_nat (length (initial_split_points archive L)) - 1)
             dt cdt 1 0 0 (resampled_on cubic_spline x_new traj)),
       <[kref := ks']> h).
Proof.
  intros Hks Hfeet Hrm Hload Hne Hrect H4 Hdt Hpos.
  assert (Np.shape1 traj = Ok (Z.of_nat L)) as Hshape.
  { destruct traj as [|r t']; [congruence|].
    apply (shape1_rectangular L _ r Hrect). reflexivity. }
  destruct (interpolate_returns traj (sampling_factor dt cdt) (Z.of_nat L) Hshape)
    as (x_new & Hlen & Hint); [lia | |].
  { apply round_nonneg, Qmult_le_0_compat.
    - change 0%Q with (inject_Z 0). rewrite <- Zle_Qle. lia.
    - rewrite sampling_factor_quotient. apply Qlt_le_weak, Hpos. }
  exists x_new. split.
  { rewrite Hlen. f_equal. apply round_proper.
    rewrite sampling_factor_quotient. reflexivity. }
  split; [exact Hint|].
  assert (Qeq_bool dt cdt = false) as Hneq.
  { destruct (Qeq_bool dt cdt) eqn:E; [|reflexivity].
    apply Qeq_bool_iff in E. contradiction. }
  init_keys_steps Hks Hfeet Hrm.
  unfold bind, gets, lift, ret, raise.
  rewrite lookup_total_insert_eq, Hload, (array_rectangular L traj Hrect).
  rewrite Hneq, (positive_quotient_divisor dt cdt Hpos).
  unfold initial_split_points.
  fold (sampling_factor dt cdt).
  destruct (split_points_array archive) as [sp|]; simpl.
  - rewrite Hint. reflexivity.
  - rewrite Hshape. simpl. rewrite Hint. reflexivity.
Qed.

End ResamplingProperties.

(** * The claims *)

(** ** Segmenter *)

(** C7.  Sub-trajectory extraction raises [IndexError] whenever the repeat
    index [i >= 0] and the count [N >= 0] satisfy
    [i + N > len(split_points) - 1]. *)
Theorem segment_index_error (o : Trajectory) (i N : Z) :
  0 <= i -> 0 <= N ->
  i + N > Z.of_nat (length (split_points o)) - 1 ->
  _get_traj_gait_sub_steps o i N = Raise IndexError.
Proof.
  intros Hi HN Hout. unfold _get_traj_gait_sub_steps.
  destruct (Py.getitem (split_points o) i) as [a|e] eqn:Ha; simpl.
  - (* the first look-up passes, the second is out of range *)
    rewrite getitem_out_of_range by lia. reflexivity.
  - (* the first look-up fails, and a look-up only fails this way *)
    unfold Py.getitem in Ha.
    destruct (Py.index _ i) as [k|] eqn:Hk; [|congruence].
    destruct (lookup_lt_is_Some_2 _ k (index_Some_lt _ _ _ Hk)) as [x Hx].
    rewrite Hx in Ha. discriminate.
Qed.

Lemma segment_index_error_witness :
  _get_traj_gait_sub_steps Examples.gait_object 1 2 = Raise IndexError.
Proof.
  apply (segment_index_error Examples.gait_object 1 2); simpl; lia.
Defined.

(** Strictly increasing split points make every repeat of one cycle or more
    a non-empty one. *)
Lemma increasing_split_points (sp : list Z) (i j : nat) (a b : Z) :
  StronglySorted Z.lt sp ->
  sp !! i = Some a -> sp !! j = Some b -> (i < j)%nat -> a < b.
Proof.
  intros H. revert i j.
  induction H as [|x l _ IH Hx]; intros [|i] [|j]; simpl;
    try discriminate; try lia.
  - intros [= <-] Hb _. rewrite Forall_forall in Hx.
    apply Hx. eapply list_elem_of_lookup_2, Hb.
  - intros Ha Hb Hij. apply (IH i j); [assumption | assumption | lia].
Qed.

(** A repeat that starts at the end of the trajectory cannot be extracted,
    even when it is empty. *)
Lemma gait_sub_steps_start_at_end (o : Trajectory) (i N b : Z) (L : nat)
    (row0 : list Q) :
  Np.rectangular L (trajectory o) ->
  trajectory o !! 0%nat = Some row0 ->
  Py.getitem (split_points o) i = Ok (Z.of_nat L) ->
  Py.getitem (split_points o) (i + N) = Ok b ->
  _get_traj_gait_sub_steps o i N = Raise IndexError.
Proof.
  intros Hrect Hrow0 Ha Hb.
  assert (length row0 = L) as Hlen.
  { eapply Forall_lookup_1 in Hrect; [exact Hrect | exact Hrow0]. }
  unfold _get_traj_gait_sub_steps. rewrite Ha, Hb. simpl.
  rewrite (getitem_zero _ _ Hrow0). simpl.
  rewrite getitem_out_of_range by lia. reflexivity.
Qed.

(** C6, as stated, fails.  With the default time steps ([traj_dt = 0.002],
    [control_dt = 0.01]) an archive of 20 samples per channel with the
    increasing split points [[0, 18, 20]] is resampled to 4 samples per
    channel with the split points [[0, 4, 4]]; the repeat [i = 1], [N = 1] is
    valid ([i + N <= len(split_points) - 1]), and its extraction raises
    [IndexError] instead of returning the empty segment [trajectory[:, 4:4]].
    (The values of the samples play no role.) *)
Lemma segment_empty_last_repeat_raises :
  exists (o : Trajectory) (h' : store),
    __init__ Examples.hold Examples.caller_keys Examples.short_archive
      (1 # 500) (1 # 100) [] Examples.scenario_store = (Ok o, h') /\
    Np.rectangular 4 (trajectory o) /\
    split_points o = [0; 4; 4] /\
    Sorted Z.le (split_points o) /\
    1 + 1 <= Z.of_nat (length (split_points o)) - 1 /\
    _get_traj_gait_sub_steps o 1 1 = Raise IndexError.
Proof.
  eexists. eexists. split; [vm_compute; reflexivity|].
  simpl. repeat split.
  - repeat constructor.
  - repeat constructor; simpl; lia.
  - lia.
Qed.

(** C6, amended.  For a repeat index [i >= 0] and a count [N >= 0] with
    [i + N <= len(split_points) - 1] whose segment is not empty and lies
    inside the trajectory ([0 <= split_points[i] < split_points[i+N] <= L]),
    the extraction returns
    [trajectory[:, split_points[i]:split_points[i+N]]] with the first channel
    decreased everywhere by [trajectory[0][split_points[i]]]; every channel
    of the segment has [split_points[i+N] - split_points[i]] samples, the
    segment has as many channels as the trajectory, and its first channel is
    zero at index 0. *)
Theorem segment_extraction (o : Trajectory) (i N a b : Z) (L : nat) :
  Np.rectangular L (trajectory o) -> trajectory o <> [] ->
  0 <= i -> 0 <= N ->
  i + N <= Z.of_nat (length (split_points o)) - 1 ->
  split_points o !! Z.to_nat i = Some a ->
  split_points o !! Z.to_nat (i + N) = Some b ->
  0 <= a < b -> b <= Z.of_nat L ->
  exists x0 segment,
    Np.getitem2 (trajectory o) 0 a = Ok x0 /\
    _get_traj_gait_sub_steps o i N = Ok segment /\
    segment = Np.isub_row (Np.columns (trajectory o) a b) 0 x0 /\
    Np.rectangular (Z.to_nat (b - a)) segment /\
    length segment = length (trajectory o) /\
    zero_at segment 0 0.
Proof.
  intros Hrect Hne Hi HN HiN Ha Hb Hab HbL.
  destruct (trajectory o) as [|row0 rest] eqn:Ht; [congruence|].
  rewrite <- Ht in *.
  assert (trajectory o !! 0%nat = Some row0) as Hrow0 by (rewrite Ht; reflexivity).
  assert (Py.getitem (split_points o) i = Ok a) as Hga.
  { replace i with (Z.of_nat (Z.to_nat i)) by lia. apply getitem_nat, Ha. }
  assert (Py.getitem (split_points o) (i + N) = Ok b) as Hgb.
  { replace (i + N) with (Z.of_nat (Z.to_nat (i + N))) by lia.
    apply getitem_nat, Hb. }
  destruct (gait_sub_steps_segment o i N a b L row0 Hrect Hrow0 Hga Hgb Hab HbL)
    as (x0 & Hx0 & Hseg).
  assert (Np.getitem2 (trajectory o) 0 a = Ok x0) as Hg0.
  { change 0 with (Z.of_nat 0). rewrite (getitem2_lookup _ _ _ _ Hrow0).
    replace a with (Z.of_nat (Z.to_nat a)) by lia. apply getitem_nat, Hx0. }
  exists x0, (Np.isub_row (Np.columns (trajectory o) a b) 0 x0).
  repeat split; try assumption.
  - apply rectangular_isub_row, (rectangular_columns L); [assumption | lia | lia].
  - unfold Np.isub_row, Np.columns. rewrite length_alter, length_fmap.
    reflexivity.
  - exists (x0 - x0)%Q. split; [|ring].
    change 0 with (Z.of_nat 0) at 1.
    apply (getitem2_isub_row_same (Np.columns (trajectory o) a b) 0 0).
    rewrite (getitem2_lookup _ 0 (Py.slice row0 a b)).
    + assert (length row0 = L) as HL.
      { eapply Forall_lookup_1 in Hrect; [exact Hrect | exact Hrow0]. }
      apply (getitem_nat _ 0). rewrite lookup_slice by lia.
      rewrite Nat.add_0_r. exact Hx0.
    + unfold Np.columns. rewrite list_lookup_fmap, Hrow0. reflexivity.
Qed.

(** The scenario of the specification: split points [[0, 50, 120]], repeat 1,
    count 1: the segment spans the samples 50 to 119 and has length 70. *)
Lemma segment_extraction_witness :
  exists x0 segment,
    Np.getitem2 (trajectory Examples.gait_object) 0 50 = Ok x0 /\
    _get_traj_gait_sub_steps Examples.gait_object 1 1 = Ok segment /\
    segment = Np.isub_row (Np.columns (trajectory Examples.gait_object) 50 120) 0 x0 /\
    Np.rectangular (Z.to_nat (120 - 50)) segment /\
    length segment = length (trajectory Examples.gait_object) /\
    zero_at segment 0 0.
Proof.
  apply (segment_extraction Examples.gait_object 1 1 50 120 120).
  - repeat constructor.
  - discriminate.
  - lia.
  - lia.
  - simpl. lia.
  - reflexivity.
  - reflexivity.
  - lia.
  - lia.
Defined.

(** ** Trajectory store *)

(** C5.  Every call of [reset_trajectory] on a trajectory with at least two
    channels returns, with a cursor [s] that is the one passed as
    [substep_no] or the one drawn at random, and leaves a working
    sub-trajectory whose channels 0 and 1 are zero at index [s].  The state
    before the call is arbitrary (for a random draw, the working
    sub-trajectory it replaces has the length of the trajectory, as every
    one that the class builds has), and the state after it satisfies the
    same conditions, so that every reset establishes the offset anew. *)
Theorem reset_zero_offset (len_q_pos len_qvel : Z) (substep_no : option Z)
    (w : World) (L : nat) :
  Np.rectangular L (trajectory (self w)) ->
  (2 <= length (trajectory (self w)))%nat ->
  match substep_no with
  | Some s => - Z.of_nat L <= s < Z.of_nat L
  | None => Np.shape1 (subtraj (self w)) = Ok (Z.of_nat L) /\ (0 < L)%nat
  end ->
  exists r w',
    reset_trajectory len_q_pos len_qvel substep_no w = (Ok r, w') /\
    (forall s, substep_no = Some s -> subtraj_step_no (self w') = s) /\
    zero_at (subtraj (self w')) 0 (subtraj_step_no (self w')) /\
    zero_at (subtraj (self w')) 1 (subtraj_step_no (self w')) /\
    trajectory (self w') = trajectory (self w) /\
    Np.shape1 (subtraj (self w')) = Ok (Z.of_nat L).
Proof.
  intros Hrect Hlen Hs.
  assert (forall w1 : World,
            trajectory (self w1) = trajectory (self w) ->
            - Z.of_nat L <= subtraj_step_no (self w1) < Z.of_nat L ->
            exists r w',
              offset_and_read len_q_pos len_qvel w1 = (Ok r, w') /\
              subtraj_step_no (self w') = subtraj_step_no (self w1) /\
              zero_at (subtraj (self w')) 0 (subtraj_step_no (self w')) /\
              zero_at (subtraj (self w')) 1 (subtraj_step_no (self w')) /\
              trajectory (self w') = trajectory (self w) /\
              Np.shape1 (subtraj (self w')) = Ok (Z.of_nat L)) as Htail.
  { intros w1 Ht Hc.
    destruct (offset_and_read_ok len_q_pos len_qvel w1 L)
      as (qpos & qvel & t & Heq & Hrect_t & Hlen_t & Hz0 & Hz1);
      try (rewrite Ht; assumption); try assumption.
    exists (qpos, qvel). eexists. split; [exact Heq|]. simpl.
    repeat split; try assumption.
    destruct (lookup_lt_is_Some_2 t 0) as [row Hrow].
    { rewrite Hlen_t, Ht. lia. }
    apply (shape1_rectangular L t row Hrect_t Hrow). }
  destruct substep_no as [s|].
  - rewrite reset_trajectory_explicit.
    destruct (Htail (on_self (set_subtraj_step_no s) (on_self (set_x_dist 0) w)))
      as (r & w' & Heq & Hcur & Hrest); [reflexivity | simpl; lia |].
    exists r, w'. split; [exact Heq|]. split; [|exact Hrest].
    intros s' [= <-]. exact Hcur.
  - destruct Hs as [Hshape HL]. rewrite (reset_trajectory_random _ _ _ _ Hshape).
    assert (0 < Z.of_nat L) as HLz by lia.
    pose proof (cursor_below_length (fst (Np.rand (np_random w))) (Z.of_nat L)
                  (rand_unit_interval _) HLz) as Hc.
    match goal with |- context [offset_and_read _ _ ?w1] =>
      destruct (Htail w1) as (r & w' & Heq & Hcur & Hrest)
    end; [reflexivity | simpl in *; lia |].
    exists r, w'. split; [exact Heq|]. split; [|exact Hrest].
    intros s' [=].
Qed.

Lemma reset_zero_offset_witness :
  exists r w',
    reset_trajectory 1 1 (Some 2) Examples.walk_world = (Ok r, w') /\
    (forall s, Some 2 = Some s -> subtraj_step_no (self w') = s) /\
    zero_at (subtraj (self w')) 0 (subtraj_step_no (self w')) /\
    zero_at (subtraj (self w')) 1 (subtraj_step_no (self w')) /\
    trajectory (self w') = trajectory (self Examples.walk_world) /\
    Np.shape1 (subtraj (self w')) = Ok 3.
Proof.
  apply (reset_zero_offset 1 1 (Some 2) Examples.walk_world 3).
  - repeat constructor.
  - simpl. lia.
  - lia.
Defined.

(** C8.  When [substep_no] is omitted, the cursor that [reset_trajectory]
    selects is [int(r * (traj_length * 0.45))] for the draw [r] in
    [[0, 1)], whatever the outcome of the call; on a sub-trajectory that is
    not empty it lies in [[0, 0.45 * traj_length)], and so in [[0, 450)] when
    [traj_length] is 1000. *)
Theorem reset_random_cursor (len_q_pos len_qvel : Z) (w : World) (L : Z) :
  Np.shape1 (subtraj (self w)) = Ok L -> 0 < L ->
  let r := fst (Np.rand (np_random w)) in
  let c := subtraj_step_no (self (snd (reset_trajectory len_q_pos len_qvel None w))) in
  (0 <= r < 1)%Q /\
  c = Py.int (r * (inject_Z L * (45 # 100))) /\
  0 <= c /\ (inject_Z c < (45 # 100) * inject_Z L)%Q /\
  (L = 1000 -> 0 <= c < 450).
Proof.
  intros Hshape HL r c.
  assert (c = Py.int (r * (inject_Z L * (45 # 100)))) as Hc.
  { unfold c. rewrite (reset_trajectory_random _ _ _ _ Hshape).
    destruct (offset_and_read_frame len_q_pos len_qvel
                (on_self
                   (set_subtraj_step_no (Py.int (r * (inject_Z L * (45 # 100)))))
                   (mkWorld (set_x_dist 0 (self w)) (snd (Np.rand (np_random w)))
                      (sub_trajectory_calls w)))) as [Hcur _].
    exact Hcur. }
  pose proof (rand_unit_interval (np_random w)) as Hr. fold r in Hr.
  destruct (cursor_range r L Hr HL) as [H0 H1]. rewrite <- Hc in H0, H1.
  repeat split; try assumption; try apply Hr.
  subst L. rewrite Zlt_Qlt. eapply Qlt_le_trans; [exact H1|]. discriminate.
Qed.

Lemma reset_random_cursor_witness :
  0 <= subtraj_step_no
         (self (snd (reset_trajectory 1 1 None Examples.long_world))) < 450.
Proof.
  apply (reset_random_cursor 1 1 Examples.long_world 1000);
    [reflexivity | lia | reflexivity].
Defined.

(** C1, as stated, fails: from the state that a reset to cursor 0 leaves on a
    sub-trajectory of length 3, three calls of [get_next_sample] make no call
    of [get_next_sub_trajectory] at all, and the distance is still 0, not the
    last value 5 of channel 0. *)
Lemma wraparound_not_within_traj_length_calls :
  subtraj_step_no (self Examples.walk_start) = 0 /\
  fst (traj_length Examples.walk_start) = Ok 3 /\
  Np.getitem2 (subtraj (self Examples.walk_start)) 0 (-1) = Ok 5%Q /\
  sub_trajectory_calls (snd (get_next_samples 3 Examples.walk_start))
  <> S (sub_trajectory_calls Examples.walk_start) /\
  ~ (x_dist (self (snd (get_next_samples 3 Examples.walk_start))) == 5)%Q.
Proof. repeat split; discriminate. Qed.

(** C1, amended.  From the state that [reset_trajectory] with cursor 0
    leaves, [traj_length] calls of [get_next_sample] return the
    [traj_length] samples of the working sub-trajectory in order, make no
    call of [get_next_sub_trajectory], and leave the cursor at [traj_length]
    and the distance at 0.  The next call is the one that calls
    [get_next_sub_trajectory], exactly once (whatever the outcome of that
    call). *)
Theorem cursor_wraparound (len_q_pos len_qvel : Z) (w : World) (L : nat) :
  Np.rectangular L (trajectory (self w)) ->
  (2 <= length (trajectory (self w)))%nat ->
  (0 < L)%nat ->
  exists r0 w0 samples wL,
    reset_trajectory len_q_pos len_qvel (Some 0) w = (Ok r0, w0) /\
    fst (traj_length w0) = Ok (Z.of_nat L) /\
    get_next_samples L w0 = (Ok samples, wL) /\
    length samples = L /\
    (forall (j : nat) (x : list Q),
       samples !! j = Some x ->
       Np.column (subtraj (self w0)) (Z.of_nat j) = Ok x) /\
    wL = on_self (set_subtraj_step_no (Z.of_nat L)) w0 /\
    sub_trajectory_calls wL = sub_trajectory_calls w /\
    x_dist (self wL) = 0%Q /\
    sub_trajectory_calls (snd (get_next_sample wL))
    = S (sub_trajectory_calls w).
Proof.
  intros Hrect Hlen HL. rewrite reset_trajectory_explicit.
  set (w1 := on_self (set_subtraj_step_no 0) (on_self (set_x_dist 0) w)).
  destruct (offset_and_read_ok len_q_pos len_qvel w1 L)
    as (qpos & qvel & t & Heq & Hrect_t & Hlen_t & _ & _);
    [exact Hrect | exact Hlen | simpl; lia |].
  set (w0 := on_self (set_subtraj t) w1) in *.
  destruct (lookup_lt_is_Some_2 t 0) as [row Hrow].
  { rewrite Hlen_t. simpl. lia. }
  assert (length row = L) as Hrow_len.
  { eapply Forall_lookup_1 in Hrect_t; [exact Hrect_t | exact Hrow]. }
  destruct (index_valid (length row) (-1)) as [k Hk]; [lia|].
  destruct (getitem_index row (-1) k Hk) as (last & _ & Hlast).
  destruct (get_next_samples_inside L (self w0) (np_random w0)
              (sub_trajectory_calls w0) L row)
    as (samples & Hsamples & Hcols & Hrun); simpl; try assumption; try lia.
  exists (qpos, qvel), w0, samples,
    (on_self (set_subtraj_step_no (Z.of_nat L)) w0).
  assert (get_next_sample (on_self (set_subtraj_step_no (Z.of_nat L)) w0)
          = (Raise TypeError,
             mkWorld (set_x_dist (0 + last)
                        (set_subtraj_step_no (Z.of_nat L) (self w0)))
               (np_random w0) (S (sub_trajectory_calls w0)))) as Hend.
  { apply (get_next_sample_at_end
             (set_subtraj_step_no (Z.of_nat L) (self w0)) _ _ L row last);
      simpl; assumption || reflexivity. }
  repeat split.
  - exact Heq.
  - unfold traj_length, bind, gets, lift. simpl.
    rewrite (shape1_rectangular L t row Hrect_t Hrow). reflexivity.
  - exact Hrun.
  - exact Hsamples.
  - intros j x Hx. apply Hcols in Hx. exact Hx.
  - rewrite Hend. reflexivity.
Qed.

Lemma cursor_wraparound_witness :
  exists r0 w0 samples wL,
    reset_trajectory 1 1 (Some 0) Examples.walk_world = (Ok r0, w0) /\
    fst (traj_length w0) = Ok 3 /\
    get_next_samples 3 w0 = (Ok samples, wL) /\
    length samples = 3%nat /\
    (forall (j : nat) (x : list Q),
       samples !! j = Some x ->
       Np.column (subtraj (self w0)) (Z.of_nat j) = Ok x) /\
    wL = on_self (set_subtraj_step_no 3) w0 /\
    sub_trajectory_calls wL = 0%nat /\
    x_dist (self wL) = 0%Q /\
    sub_trajectory_calls (snd (get_next_sample wL)) = 1%nat.
Proof.
  apply (cursor_wraparound 1 1 Examples.walk_world 3).
  - repeat constructor.
  - simpl. lia.
  - lia.
Defined.

(** ** Signal resampler *)

Lemma round_nonpos (x : Q) : (x <= 0)%Q -> Py.round x <= 0.
Proof.
  intros Hx. unfold Py.round.
  assert (Qfloor x <= 0) as Hfl.
  { change 0 with (Qfloor 0). apply Qfloor_resp_le, Hx. }
  destruct (Qcompare (x - inject_Z (Qfloor x)) (1 # 2)) eqn:Hcmp; try lia.
  - destruct (Z.even (Qfloor x)) eqn:Hev; [lia|].
    assert (Qfloor x <> 0) by (intros H0; rewrite H0 in Hev; discriminate). lia.
  - assert (Qfloor x <> 0); [|lia].
    intros H0. rewrite H0 in Hcmp. apply Qgt_alt in Hcmp.
    assert (x - inject_Z 0 == x)%Q as Hx0 by (unfold Qminus; simpl; ring).
    rewrite Hx0 in Hcmp.
    assert (1 # 2 < 0)%Q as Habs by (eapply Qlt_le_trans; eassumption).
    discriminate.
Qed.

Lemma resampled_on_shape (cubic_spline : list Q -> Q -> Q) (x_new : list Q)
    (traj : Np.ndarray) :
  length (resampled_on cubic_spline x_new traj) = length traj /\
  Np.rectangular (length x_new) (resampled_on cubic_spline x_new traj).
Proof.
  unfold resampled_on, Np.rectangular. split.
  - apply length_fmap.
  - apply Forall_fmap, Forall_forall. intros ys _. simpl. apply length_fmap.
Qed.

(** C4, as stated, fails: with the factor 0 and four samples per channel the
    resampler raises nothing and returns a trajectory without samples; with
    three samples per channel it raises [ValueError]. *)
Lemma resampler_zero_factor_returns :
  _interpolate_trajectory Examples.hold [[0; 1; 2; 3]; [4; 5; 6; 7]]%Q 0
  = Ok [[]; []] /\
  _interpolate_trajectory Examples.hold [[0; 1; 2]; [4; 5; 6]]%Q 1
  = Raise ValueError.
Proof. split; reflexivity. Qed.

(** C4, amended.  The resampler has no check of its own and never raises
    [ConfigurationError].  It fails, with the [ValueError] of the numerical
    routines it calls, when the trajectory has fewer than 4 samples per
    channel or when [round(L * factor)] is negative; with at least 4 samples
    and [round(L * factor) >= 0] it returns [round(L * factor)] samples per
    channel, which for a factor [<= 0] that passes (so that
    [round(L * factor) = 0]) is a trajectory without samples. *)
Theorem resampler_failures (cubic_spline : list Q -> Q -> Q)
    (traj : Np.ndarray) (factor : Q) (L : Z) :
  Np.shape1 traj = Ok L ->
  (L < 4 \/ Py.round (inject_Z L * factor) < 0 ->
   _interpolate_trajectory cubic_spline traj factor = Raise ValueError) /\
  (4 <= L -> 0 <= Py.round (inject_Z L * factor) ->
   exists out,
     _interpolate_trajectory cubic_spline traj factor = Ok out /\
     length out = length traj /\
     Np.rectangular (Z.to_nat (Py.round (inject_Z L * factor))) out) /\
  (4 <= L -> (factor <= 0)%Q -> 0 <= Py.round (inject_Z L * factor) ->
   _interpolate_trajectory cubic_spline traj factor
   = Ok ((fun _ => []) <$> traj)) /\
  _interpolate_trajectory cubic_spline traj factor <> Raise ConfigurationError.
Proof.
  intros HL. split; [|split; [|split]].
  - apply interpolate_raises, HL.
  - intros H4 Hnum.
    destruct (interpolate_returns cubic_spline traj factor L HL H4 Hnum)
      as (x_new & Hlen & Hint).
    exists (resampled_on cubic_spline x_new traj).
    destruct (resampled_on_shape cubic_spline x_new traj) as [Hc Hr].
    rewrite Hlen in Hr. auto.
  - intros H4 Hf Hnum.
    assert (Py.round (inject_Z L * factor) = 0) as H0.
    { apply Z.le_antisymm; [|exact Hnum]. apply round_nonpos.
      rewrite Qmult_comm.
      assert (0 <= inject_Z L)%Q as HLq.
      { change 0%Q with (inject_Z 0). rewrite <- Zle_Qle. lia. }
      pose proof (Qmult_le_compat_r factor 0 (inject_Z L) Hf HLq) as H.
      rewrite Qmult_0_l in H. exact H. }
    destruct (interpolate_returns cubic_spline traj factor L HL H4 Hnum)
      as (x_new & Hlen & Hint).
    rewrite H0 in Hlen. destruct x_new; [|discriminate]. exact Hint.
  - intros H. apply interpolate_exceptions in H as [|]; discriminate.
Qed.

Lemma resampler_failures_witness :
  _interpolate_trajectory Examples.hold [[0; 1; 2]; [4; 5; 6]]%Q (-3)
  = Raise ValueError.
Proof.
  apply (resampler_failures Examples.hold [[0; 1; 2]; [4; 5; 6]]%Q (-3) 3).
  - reflexivity.
  - left. lia.
Defined.

Lemma astype_int32_in_range (z : Z) :
  - 2 ^ 31 <= z < 2 ^ 31 -> Np.astype_int32 z = z.
Proof.
  intros Hz. unfold Np.astype_int32.
  destruct (Z.leb_spec (- 2 ^ 31) z), (Z.ltb_spec z (2 ^ 31)); simpl; lia.
Qed.




Example resample_scenario :
  exists (o : Trajectory) (h' : store),
    __init__ Examples.hold Examples.caller_keys Examples.scenario_archive
      (1 # 100) (5 # 1000) [] Examples.scenario_store = (Ok o, h') /\
    Np.rectangular 20 (trajectory o) /\ length (trajectory o) = 2%nat /\
    split_points o = [0; 20].
Proof.
  eexists. eexists. split; [vm_compute; reflexivity|].
  simpl. repeat split. repeat constructor.
Qed.

(** ** Construction *)

(** C2.  With equal time steps the resampling is not skipped: the test that
    decides it evaluates [traj_speed_mult], a name that nothing binds, and
    the construction raises [NameError] once the channels are loaded. *)
Theorem init_equal_time_steps_name_error (cubic_spline : list Q -> Q -> Q)
    (kref : loc) (archive : npz) (dt cdt : Q) (ignore_keys : list string)
    (h : store) (ks ks' : list string) (traj : Np.ndarray) (L : nat) :
  h !! kref = Some ks ->
  npz_mem "rel_feet_xpos_r" archive = false ->
  remove_each ignore_keys (keys_with_goal archive ks) = Ok ks' ->
  load_channels archive ks' = Ok traj ->
  traj <> [] -> Np.rectangular L traj ->
  (dt == cdt)%Q ->
  __init__ cubic_spline kref archive dt cdt ignore_keys h
  = (Raise NameError, <[kref := ks']> h).
Proof.
  intros Hks Hfeet Hrm Hload Hne Hrect Hdt.
  assert (Np.shape1 traj = Ok (Z.of_nat L)) as Hshape.
  { destruct traj as [|r t']; [congruence|].
    apply (shape1_rectangular L _ r Hrect). reflexivity. }
  apply Qeq_bool_iff in Hdt.
  init_keys_steps Hks Hfeet Hrm.
  unfold bind, gets, lift, ret, raise.
  rewrite lookup_total_insert_eq, Hload, (array_rectangular L traj Hrect).
  rewrite Hdt, load_global_undefined.
  destruct (split_points_array archive) as [sp|]; simpl.
  - reflexivity.
  - rewrite Hshape. reflexivity.
Qed.

Lemma init_equal_time_steps_name_error_witness :
  __init__ Examples.hold Examples.caller_keys Examples.scenario_archive
    (1 # 100) (1 # 100) [] Examples.scenario_store
  = (Raise NameError,
     <[Examples.caller_keys := ["pos"; "vel"]%string]> Examples.scenario_store).
Proof.
  apply (init_equal_time_steps_name_error Examples.hold Examples.caller_keys
           Examples.scenario_archive (1 # 100) (1 # 100) []
           Examples.scenario_store ["pos"; "vel"]%string ["pos"; "vel"]%string
           Examples.scenario_trajectory 10).
  - reflexivity.
  - reflexivity.
  - reflexivity.
  - reflexivity.
  - discriminate.
  - repeat constructor.
  - reflexivity.
Defined.

(** No construction with equal time steps returns an instance. *)
Lemma init_equal_time_steps_never_returns (cubic_spline : list Q -> Q -> Q)
    (kref : loc) (archive : npz) (dt cdt : Q) (ignore_keys : list string)
    (h h' : store) (o : Trajectory) :
  (dt == cdt)%Q ->
  __init__ cubic_spline kref archive dt cdt ignore_keys h <> (Ok o, h').
Proof.
  intros Hdt H. apply init_Ok_inv in H as (_ & _ & _ & _ & _ & Hneq).
  apply Qeq_bool_iff in Hdt. congruence.
Qed.

(** C10.  An archive that contains the key ["rel_feet_xpos_r"] makes the
    construction raise [NameError], whatever the other arguments are:
    [FOOT_KEYS] is not bound. *)
Theorem init_foot_keys_name_error (cubic_spline : list Q -> Q -> Q)
    (kref : loc) (archive : npz) (dt cdt : Q) (ignore_keys : list string)
    (h : store) :
  npz_mem "rel_feet_xpos_r" archive = true ->
  fst (__init__ cubic_spline kref archive dt cdt ignore_keys h) = Raise NameError.
Proof.
  intros Hfeet. unfold __init__.
  assert (exists h1,
            (if npz_mem "goal" archive
             then list_iadd kref ["goal"%string] else ret tt) h = (Ok tt, h1))
    as [h1 Hgoal].
  { destruct (npz_mem "goal" archive); eexists; reflexivity. }
  rewrite (bind_ok _ _ _ _ _ Hgoal), Hfeet.
  unfold bind, lift. rewrite load_global_undefined. reflexivity.
Qed.

Lemma init_foot_keys_name_error_witness :
  fst (__init__ Examples.hold Examples.caller_keys Examples.feet_archive
         (1 # 500) (1 # 100) [] Examples.scenario_store)
  = Raise NameError.
Proof.
  apply (init_foot_keys_name_error Examples.hold Examples.caller_keys
           Examples.feet_archive (1 # 500) (1 # 100) [] Examples.scenario_store).
  reflexivity.
Defined.

(** C9.  The constructor changes the list object that the caller passed as
    [keys]: it appends ["goal"] to it when the archive has a ["goal"] array,
    then removes from it every entry of [ignore_keys]; the instance keeps a
    reference to that same object.  Whatever the outcome of the
    construction, the caller's list holds the result of these operations,
    and no other list of the store is touched. *)
Theorem init_mutates_keys (cubic_spline : list Q -> Q -> Q)
    (kref : loc) (archive : npz) (dt cdt : Q) (ignore_keys : list string)
    (h : store) (ks ks' : list string) :
  h !! kref = Some ks ->
  npz_mem "rel_feet_xpos_r" archive = false ->
  remove_each ignore_keys
    (if npz_mem "goal" archive then ks ++ ["goal"%string] else ks) = Ok ks' ->
  let out := __init__ cubic_spline kref archive dt cdt ignore_keys h in
  snd out !! kref = Some ks' /\
  (forall l : loc, l <> kref -> snd out !! l = h !! l) /\
  (forall o : Trajectory, fst out = Ok o -> keys o = kref) /\
  (length ks' + length ignore_keys
   = length ks + (if npz_mem "goal" archive then 1 else 0))%nat /\
  (length ignore_keys <> (if npz_mem "goal" archive then 1 else 0)%nat ->
   ks' <> ks).
Proof.
  intros Hks Hfeet Hrm out.
  assert (snd out = <[kref := ks']> h) as Hstore.
  { apply (init_store cubic_spline kref archive dt cdt ignore_keys h ks ks');
      assumption. }
  assert (length ks' + length ignore_keys
          = length ks + (if npz_mem "goal" archive then 1 else 0))%nat as Hlen.
  { apply length_remove_each in Hrm.
    destruct (npz_mem "goal" archive); [rewrite length_app in Hrm; simpl in Hrm|];
      lia. }
  repeat split.
  - rewrite Hstore. apply lookup_insert_eq.
  - intros l Hl. rewrite Hstore. apply lookup_insert_ne. congruence.
  - intros o Ho. destruct out as [r h'] eqn:Hout. simpl in Ho. subst r.
    apply init_Ok_inv in Hout. tauto.
  - exact Hlen.
  - intros Hn ->. lia.
Qed.

Lemma init_mutates_keys_witness :
  snd (__init__ Examples.hold Examples.caller_keys Examples.goal_archive
         (1 # 100) (5 # 1000) ["vel"%string] Examples.scenario_store)
    !! Examples.caller_keys
  = Some ["pos"; "goal"]%string.
Proof.
  apply (init_mutates_keys Examples.hold Examples.caller_keys
           Examples.goal_archive (1 # 100) (5 # 1000) ["vel"%string]
           Examples.scenario_store ["pos"; "vel"]%string ["pos"; "goal"]%string).
  - reflexivity.
  - reflexivity.
  - reflexivity.
Defined.

(** * Further properties of the code *)

(** ** Playback *)

(** [get_next_sub_trajectory] never returns: its call of [reset_trajectory]
    lacks the two required arguments ([TypeError]), unless channel 0 has no
    last sample to add to the distance ([IndexError]).  In both cases the
    cursor and the working sub-trajectory are left as they were. *)
Theorem sub_trajectory_never_returns (w : World) :
  exists e w',
    get_next_sub_trajectory w = (Raise e, w') /\
    sub_trajectory_calls w' = S (sub_trajectory_calls w) /\
    subtraj_step_no (self w') = subtraj_step_no (self w) /\
    subtraj (self w') = subtraj (self w) /\
    ((e = TypeError /\
      exists last,
        Np.getitem2 (subtraj (self w)) 0 (-1) = Ok last /\
        x_dist (self w') = (x_dist (self w) + last)%Q) \/
     (e = IndexError /\
      Np.getitem2 (subtraj (self w)) 0 (-1) = Raise IndexError /\
      x_dist (self w') = x_dist (self w))).
Proof.
  unfold get_next_sub_trajectory, ghost_enter_sub_trajectory, bind, gets, lift,
    modify, ret, Np.getitem2. simpl.
  destruct (Py.getitem (subtraj (self w)) 0) as [row|e] eqn:Hrow; simpl.
  - destruct (Py.getitem row (-1)) as [last|e] eqn:Hlast; simpl.
    + exists TypeError. eexists. repeat split. left. eauto.
    + assert (e = IndexError) as ->.
      { unfold Py.getitem in Hlast. destruct (Py.index _ _); [|congruence].
        destruct (row !! n); simpl in Hlast; congruence. }
      exists IndexError. eexists. repeat split. right. auto.
  - assert (e = IndexError) as ->.
    { unfold Py.getitem in Hrow. destruct (Py.index _ _); [|congruence].
      destruct (subtraj (self w) !! n); simpl in Hrow; congruence. }
    exists IndexError. eexists. repeat split. right. auto.
Qed.

(** The cursor may be negative: [get_next_sample] then reads from the end,
    as Python indexing does. *)
Lemma get_next_sample_before_end (o : Trajectory) (g : Np.RandomState) (k : nat)
    (L : nat) (row : list Q) :
  Np.rectangular L (subtraj o) -> subtraj o !! 0%nat = Some row ->
  - Z.of_nat L <= subtraj_step_no o < Z.of_nat L ->
  exists sample,
    Np.column (subtraj o) (subtraj_step_no o) = Ok sample /\
    get_next_sample (mkWorld o g k)
    = (Ok sample, mkWorld (set_subtraj_step_no (subtraj_step_no o + 1) o) g k).
Proof.
  intros Hrect Hrow Hc.
  destruct (column_rectangular L (subtraj o) (subtraj_step_no o) Hrect Hc)
    as (sample & Hsample & _).
  exists sample. split; [exact Hsample|].
  unfold get_next_sample, traj_length, bind, gets, lift, modify, ret. simpl.
  rewrite (shape1_rectangular L _ row Hrect Hrow). simpl.
  destruct (Z.leb_spec (Z.of_nat L) (subtraj_step_no o)); [lia|]. simpl.
  rewrite Hsample. reflexivity.
Qed.

Lemma get_next_samples_before_end (n : nat) :
  forall (o : Trajectory) (g : Np.RandomState) (k : nat) (L : nat)
         (row : list Q),
    Np.rectangular L (subtraj o) -> subtraj o !! 0%nat = Some row ->
    - Z.of_nat L <= subtraj_step_no o ->
    subtraj_step_no o + Z.of_nat n <= Z.of_nat L ->
    exists samples,
      length samples = n /\
      (forall (j : nat) (x : list Q),
         samples !! j = Some x ->
         Np.column (subtraj o) (subtraj_step_no o + Z.of_nat j) = Ok x) /\
      get_next_samples n (mkWorld o g k)
      = (Ok samples,
         mkWorld (set_subtraj_step_no (subtraj_step_no o + Z.of_nat n) o) g k).
Proof.
  induction n as [|n IH]; intros o g k L row Hrect Hrow Hc0 Hc1.
  - exists []. split; [reflexivity|]. split; [intros j x; discriminate|].
    simpl. unfold ret. rewrite Z.add_0_r. destruct o; reflexivity.
  - destruct (get_next_sample_before_end o g k L row Hrect Hrow)
      as (x & Hcol & Hx); [lia|].
    destruct (IH (set_subtraj_step_no (subtraj_step_no o + 1) o) g k L row)
      as (xs & Hlen & Hcols & Hxs); simpl; try assumption; try lia.
    exists (x :: xs). split; [simpl; congruence|]. split.
    + intros [|j] y; simpl.
      * intros [= <-]. rewrite Z.add_0_r. exact Hcol.
      * intros Hy. apply Hcols in Hy. simpl in Hy.
        rewrite <- Hy. f_equal. lia.
    + change (get_next_samples (S n)) with
        (x <- get_next_sample ;; xs <- get_next_samples n ;; ret (x :: xs)).
      unfold bind at 1. rewrite Hx. unfold bind at 1. rewrite Hxs.
      unfold ret, set_subtraj_step_no. simpl. do 3 f_equal. lia.
Qed.

(** No playback goes past the end of the working sub-trajectory: from a
    cursor [c], the [traj_length - c] samples up to the end are all that
    [get_next_sample] gives, and any longer sequence of calls stops with
    [TypeError] at the wraparound, the cursor left at [traj_length] and the
    last value of channel 0 added to the distance. *)
Theorem playback_stops_at_end (n : nat) :
  forall (o : Trajectory) (g : Np.RandomState) (k : nat) (L : nat)
         (row : list Q) (last : Q),
    Np.rectangular L (subtraj o) -> subtraj o !! 0%nat = Some row ->
    Py.getitem row (-1) = Ok last ->
    - Z.of_nat L <= subtraj_step_no o <= Z.of_nat L ->
    Z.of_nat L < subtraj_step_no o + Z.of_nat n ->
    get_next_samples n (mkWorld o g k)
    = (Raise TypeError,
       mkWorld (set_x_dist (x_dist o + last)
                  (set_subtraj_step_no (Z.of_nat L) o)) g (S k)).
Proof.
  induction n as [|n IH]; intros o g k L row last Hrect Hrow Hlast Hc Hn;
    [lia|].
  change (get_next_samples (S n)) with
    (x <- get_next_sample ;; xs <- get_next_samples n ;; ret (x :: xs)).
  destruct (Z.eq_dec (subtraj_step_no o) (Z.of_nat L)) as [Hend|Hin].
  - unfold bind at 1.
    rewrite (get_next_sample_at_end o g k L row last Hrect Hrow Hend Hlast).
    destruct o. simpl in *. subst. reflexivity.
  - destruct (get_next_sample_before_end o g k L row Hrect Hrow)
      as (x & _ & Hx); [lia|].
    unfold bind at 1. rewrite Hx. unfold bind at 1.
    rewrite (IH (set_subtraj_step_no (subtraj_step_no o + 1) o) g k L row last);
      simpl; try assumption; try lia.
    reflexivity.
Qed.

Lemma playback_stops_at_end_witness :
  get_next_samples 10 Examples.walk_start
  = (Raise TypeError,
     mkWorld (set_x_dist (0 + 5)
                (set_subtraj_step_no 3 (self Examples.walk_start)))
       Examples.generator 1).
Proof.
  apply (playback_stops_at_end 10 (self Examples.walk_start) Examples.generator
           0 3 [0; 2; 5]%Q 5%Q).
  - repeat constructor.
  - reflexivity.
  - reflexivity.
  - simpl. lia.
  - simpl. lia.
Defined.

(** ** Reset *)

Lemma column_length (t : Np.ndarray) (j : Z) (col : list Q) :
  Np.column t j = Ok col -> length col = length t.
Proof.
  revert col. induction t as [|row t IH]; intros col; simpl.
  - intros [= <-]. reflexivity.
  - destruct (Py.getitem row j); simpl; [|discriminate].
    destruct (Np.column t j); simpl; [|discriminate].
    intros [= <-]. simpl. f_equal. apply IH. reflexivity.
Qed.

Lemma column_take (t : Np.ndarray) (j : Z) (col : list Q) (n : nat) :
  Np.column t j = Ok col -> Np.column (take n t) j = Ok (take n col).
Proof.
  revert col n. induction t as [|row t IH]; intros col n; simpl.
  - intros [= <-]. destruct n; reflexivity.
  - destruct (Py.getitem row j) as [x|] eqn:Hx; simpl; [|discriminate].
    destruct (Np.column t j) as [c|] eqn:Hc; simpl; [|discriminate].
    intros [= <-]. destruct n; simpl; [reflexivity|].
    rewrite Hx. simpl. rewrite (IH c n eq_refl). reflexivity.
Qed.

Lemma column_drop (t : Np.ndarray) (j : Z) (col : list Q) (n : nat) :
  Np.column t j = Ok col -> Np.column (drop n t) j = Ok (drop n col).
Proof.
  revert col n. induction t as [|row t IH]; intros col n; simpl.
  - intros [= <-]. destruct n; reflexivity.
  - destruct (Py.getitem row j) as [x|] eqn:Hx; simpl; [|discriminate].
    destruct (Np.column t j) as [c|] eqn:Hc; simpl; [|discriminate].
    intros [= <-]. destruct n; simpl.
    + rewrite Hx. simpl. rewrite Hc. reflexivity.
    + apply IH. reflexivity.
Qed.

(** Selecting rows and then a column is selecting the column and then its
    entries: [t[a:b, j] = t[:, j][a:b]]. *)
Lemma column_slice (t : Np.ndarray) (j a b : Z) (col : list Q) :
  Np.column t j = Ok col ->
  Np.column (Py.slice t a b) j = Ok (Py.slice col a b).
Proof.
  intros Hcol. unfold Py.slice. rewrite (column_length _ _ _ Hcol).
  apply column_take, column_drop, Hcol.
Qed.

Lemma offset_and_read_result (a b : Z) (w : World) (L : nat) :
  Np.rectangular L (trajectory (self w)) ->
  (2 <= length (trajectory (self w)))%nat ->
  - Z.of_nat L <= subtraj_step_no (self w) < Z.of_nat L ->
  exists x0 y0 sample,
    Np.getitem2 (trajectory (self w)) 0 (subtraj_step_no (self w)) = Ok x0 /\
    Np.getitem2 (trajectory (self w)) 1 (subtraj_step_no (self w)) = Ok y0 /\
    Np.column (offset_copy (trajectory (self w)) x0 y0)
      (subtraj_step_no (self w)) = Ok sample /\
    offset_and_read a b w
    = (Ok (Py.slice sample 0 a, Py.slice sample a (a + b)),
       on_self (set_subtraj (offset_copy (trajectory (self w)) x0 y0)) w).
Proof.
  intros Hrect Hlen Hs.
  set (s := subtraj_step_no (self w)) in *.
  set (t0 := trajectory (self w)) in *.
  destruct (lookup_lt_is_Some_2 t0 0) as [row0 Hrow0]; [lia|].
  destruct (lookup_lt_is_Some_2 t0 1) as [row1 Hrow1]; [lia|].
  destruct (getitem2_rectangular L t0 0 row0 s Hrect Hrow0 Hs) as [x0 Hx0].
  destruct (getitem2_rectangular L t0 1 row1 s Hrect Hrow1 Hs) as [y0 Hy0].
  assert (Np.getitem2 (Np.isub_row t0 0 x0) (Z.of_nat 1) s = Ok y0) as Hy1.
  { rewrite getitem2_isub_row_other by lia. exact Hy0. }
  assert (Np.rectangular L (offset_copy t0 x0 y0)) as Hrect2.
  { apply rectangular_isub_row, rectangular_isub_row, Hrect. }
  destruct (column_rectangular L (offset_copy t0 x0 y0) s Hrect2 Hs)
    as (sample & Hsample & _).
  exists x0, y0, sample. repeat split; try assumption.
  unfold offset_and_read, bind, modify, gets, lift, ret. simpl.
  fold t0. fold s. change 0 with (Z.of_nat 0) at 1. rewrite Hx0. simpl.
  change 1 with (Z.of_nat 1) at 1. rewrite Hy1. simpl.
  fold (offset_copy t0 x0 y0).
  rewrite (column_slice _ _ 0 a _ Hsample). simpl.
  rewrite (column_slice _ _ a (a + b) _ Hsample). reflexivity.
Qed.

(** The initial state that [reset_trajectory] returns is read off the sample
    that the next [get_next_sample] returns: [qpos = sample[0:len_q_pos]]
    and [qvel = sample[len_q_pos:len_q_pos + len_qvel]]. *)
Theorem reset_returns_first_sample (len_q_pos len_qvel : Z)
    (substep_no : option Z) (w : World) (L : nat) :
  Np.rectangular L (trajectory (self w)) ->
  (2 <= length (trajectory (self w)))%nat ->
  match substep_no with
  | Some s => - Z.of_nat L <= s < Z.of_nat L
  | None => Np.shape1 (subtraj (self w)) = Ok (Z.of_nat L) /\ (0 < L)%nat
  end ->
  exists qpos qvel w' sample w'',
    reset_trajectory len_q_pos len_qvel substep_no w = (Ok (qpos, qvel), w') /\
    get_next_sample w' = (Ok sample, w'') /\
    length sample = length (trajectory (self w)) /\
    qpos = Py.slice sample 0 len_q_pos /\
    qvel = Py.slice sample len_q_pos (len_q_pos + len_qvel) /\
    subtraj_step_no (self w'') = subtraj_step_no (self w') + 1.
Proof.
  intros Hrect Hlen Hs.
  assert (forall w1 : World,
            trajectory (self w1) = trajectory (self w) ->
            - Z.of_nat L <= subtraj_step_no (self w1) < Z.of_nat L ->
            exists qpos qvel w' sample w'',
              offset_and_read len_q_pos len_qvel w1 = (Ok (qpos, qvel), w') /\
              get_next_sample w' = (Ok sample, w'') /\
              length sample = length (trajectory (self w)) /\
              qpos = Py.slice sample 0 len_q_pos /\
              qvel = Py.slice sample len_q_pos (len_q_pos + len_qvel) /\
              subtraj_step_no (self w'') = subtraj_step_no (self w') + 1)
    as Htail.
  { intros w1 Ht Hc.
    destruct (offset_and_read_result len_q_pos len_qvel w1 L)
      as (x0 & y0 & sample & _ & _ & Hsample & Heq);
      try (rewrite Ht; assumption); try assumption.
    rewrite Ht in *.
    set (t2 := offset_copy (trajectory (self w)) x0 y0) in *.
    assert (Np.rectangular L t2) as Hrect2.
    { apply rectangular_isub_row, rectangular_isub_row, Hrect. }
    assert (length t2 = length (trajectory (self w))) as Hlen2.
    { unfold t2, offset_copy, Np.isub_row. rewrite !length_alter. reflexivity. }
    destruct (lookup_lt_is_Some_2 t2 0) as [row Hrow]; [lia|].
    destruct (get_next_sample_before_end
                (set_subtraj t2 (self w1)) (np_random w1)
                (sub_trajectory_calls w1) L row)
      as (sample' & Hsample' & Hnext); simpl; try assumption.
    simpl in Hsample'. rewrite Hsample in Hsample'. injection Hsample' as <-.
    eexists _, _, _, sample, _. split; [exact Heq|].
    split; [exact Hnext|]. repeat split.
    rewrite (column_length _ _ _ Hsample). exact Hlen2. }
  destruct substep_no as [s|].
  - rewrite reset_trajectory_explicit. apply Htail; [reflexivity | simpl; lia].
  - destruct Hs as [Hshape HL]. rewrite (reset_trajectory_random _ _ _ _ Hshape).
    assert (0 < Z.of_nat L) as HLz by lia.
    pose proof (cursor_below_length (fst (Np.rand (np_random w))) (Z.of_nat L)
                  (rand_unit_interval _) HLz) as Hc.
    apply Htail; [reflexivity | simpl in *; lia].
Qed.

Lemma reset_returns_first_sample_witness :
  exists qpos qvel w' sample w'',
    reset_trajectory 1 1 (Some 1) Examples.walk_world = (Ok (qpos, qvel), w') /\
    get_next_sample w' = (Ok sample, w'') /\
    length sample = length (trajectory (self Examples.walk_world)) /\
    qpos = Py.slice sample 0 1 /\
    qvel = Py.slice sample 1 (1 + 1) /\
    subtraj_step_no (self w'') = subtraj_step_no (self w') + 1.
Proof.
  apply (reset_returns_first_sample 1 1 (Some 1) Examples.walk_world 3).
  - repeat constructor.
  - simpl. lia.
  - lia.
Defined.

Lemma column_lookup (t : Np.ndarray) (j : Z) (col row : list Q) (c : nat) (v : Q) :
  Np.column t j = Ok col -> t !! c = Some row -> Py.getitem row j = Ok v ->
  col !! c = Some v.
Proof.
  revert col c. induction t as [|r t IH]; intros col c; simpl; [discriminate|].
  destruct (Py.getitem r j) as [x|] eqn:Hx; simpl; [|discriminate].
  destruct (Np.column t j) as [cl|] eqn:Hc; simpl; [|discriminate].
  intros [= <-]. destruct c; simpl.
  - intros [= <-] Hv. congruence.
  - intros Hrow Hv. apply (IH cl c eq_refl Hrow Hv).
Qed.

Lemma offset_copy_entry (t : Np.ndarray) (x0 y0 : Q) (c : nat) (j : Z) (v : Q) :
  Np.getitem2 t (Z.of_nat c) j = Ok v ->
  Np.getitem2 (offset_copy t x0 y0) (Z.of_nat c) j
  = Ok (match c with
        | O => v - x0
        | S O => v - y0
        | _ => v
        end)%Q.
Proof.
  intros Hv. unfold offset_copy.
  destruct c as [|[|c]].
  - rewrite getitem2_isub_row_other by lia.
    unfold Np.getitem2 in *.
    destruct (Py.getitem t (Z.of_nat 0)) as [row|] eqn:Hrow; [|discriminate].
    simpl in Hv. apply getitem_nat_inv in Hrow.
    assert (Np.isub_row t 0 x0 !! 0%nat = Some ((fun x => x - x0)%Q <$> row))
      as Hrow'.
    { unfold Np.isub_row. rewrite list_lookup_alter_eq, Hrow. reflexivity. }
    rewrite (getitem_nat _ _ _ Hrow'). simpl.
    apply (getitem_fmap (fun x => x - x0)%Q), Hv.
  - assert (Np.getitem2 (Np.isub_row t 0 x0) (Z.of_nat 1) j = Ok v) as Hv'.
    { rewrite getitem2_isub_row_other by lia. exact Hv. }
    unfold Np.getitem2 in *.
    destruct (Py.getitem (Np.isub_row t 0 x0) (Z.of_nat 1)) as [row|] eqn:Hrow;
      [|discriminate].
    simpl in Hv'. apply getitem_nat_inv in Hrow.
    assert (Np.isub_row (Np.isub_row t 0 x0) 1 y0 !! 1%nat
            = Some ((fun x => x - y0)%Q <$> row)) as Hrow'.
    { unfold Np.isub_row at 1. rewrite list_lookup_alter_eq, Hrow. reflexivity. }
    rewrite (getitem_nat _ _ _ Hrow'). simpl.
    apply (getitem_fmap (fun x => x - y0)%Q), Hv'.
  - rewrite !getitem2_isub_row_other by lia. exact Hv.
Qed.

(** After a reset to the cursor [s] (a Python index: [s] may be negative and
    then counts from the end), the calls of [get_next_sample] up to the end
    of the sub-trajectory return the columns [s], [s + 1], ... of the
    trajectory, with channels 0 and 1 shifted by their values at [s] and
    every other channel unchanged.  From [s < 0] these are more than
    [traj_length] samples. *)
Theorem reset_then_playback (len_q_pos len_qvel s : Z) (n : nat) (w : World)
    (L : nat) :
  Np.rectangular L (trajectory (self w)) ->
  (2 <= length (trajectory (self w)))%nat ->
  - Z.of_nat L <= s < Z.of_nat L ->
  s + Z.of_nat n <= Z.of_nat L ->
  exists x0 y0 r w' samples w'',
    Np.getitem2 (trajectory (self w)) 0 s = Ok x0 /\
    Np.getitem2 (trajectory (self w)) 1 s = Ok y0 /\
    reset_trajectory len_q_pos len_qvel (Some s) w = (Ok r, w') /\
    get_next_samples n w' = (Ok samples, w'') /\
    length samples = n /\
    subtraj_step_no (self w'') = s + Z.of_nat n /\
    forall (j c : nat) (sample : list Q) (v : Q),
      samples !! j = Some sample ->
      Np.getitem2 (trajectory (self w)) (Z.of_nat c) (s + Z.of_nat j) = Ok v ->
      sample !! c = Some (match c with
                          | O => v - x0
                          | S O => v - y0
                          | _ => v
                          end)%Q.
Proof.
  intros Hrect Hlen Hs Hn. rewrite reset_trajectory_explicit.
  set (w1 := on_self (set_subtraj_step_no s) (on_self (set_x_dist 0) w)).
  destruct (offset_and_read_result len_q_pos len_qvel w1 L)
    as (x0 & y0 & sample0 & Hx0 & Hy0 & _ & Heq); try assumption.
  simpl in Hx0, Hy0, Heq.
  set (t2 := offset_copy (trajectory (self w)) x0 y0) in *.
  assert (Np.rectangular L t2) as Hrect2.
  { apply rectangular_isub_row, rectangular_isub_row, Hrect. }
  assert (length t2 = length (trajectory (self w))) as Hlen2.
  { unfold t2, offset_copy, Np.isub_row. rewrite !length_alter. reflexivity. }
  destruct (lookup_lt_is_Some_2 t2 0) as [row Hrow]; [lia|].
  destruct (get_next_samples_before_end n (set_subtraj t2 (self w1))
              (np_random w1) (sub_trajectory_calls w1) L row)
    as (samples & Hsamples & Hcols & Hrun); simpl; try assumption; try lia.
  eexists x0, y0, _, _, samples, _.
  split; [exact Hx0|]. split; [exact Hy0|]. split; [exact Heq|].
  split; [exact Hrun|]. split; [exact Hsamples|]. split; [reflexivity|].
  intros j c sample v Hsample Hv. apply Hcols in Hsample. simpl in Hsample.
  pose proof (offset_copy_entry _ x0 y0 c _ v Hv) as Hentry. fold t2 in Hentry.
  unfold Np.getitem2 in Hentry.
  destruct (Py.getitem t2 (Z.of_nat c)) as [rowc|] eqn:Hrowc; [|discriminate].
  simpl in Hentry. apply getitem_nat_inv in Hrowc.
  exact (column_lookup _ _ _ _ _ _ Hsample Hrowc Hentry).
Qed.

(** From the cursor [-1] a trajectory of three samples is played for four
    steps. *)
Lemma reset_then_playback_witness :
  exists x0 y0 r w' samples w'',
    Np.getitem2 (trajectory (self Examples.walk_world)) 0 (-1) = Ok x0 /\
    Np.getitem2 (trajectory (self Examples.walk_world)) 1 (-1) = Ok y0 /\
    reset_trajectory 1 1 (Some (-1)) Examples.walk_world = (Ok r, w') /\
    get_next_samples 4 w' = (Ok samples, w'') /\
    length samples = 4%nat /\
    subtraj_step_no (self w'') = -1 + Z.of_nat 4 /\
    forall (j c : nat) (sample : list Q) (v : Q),
      samples !! j = Some sample ->
      Np.getitem2 (trajectory (self Examples.walk_world)) (Z.of_nat c)
        (-1 + Z.of_nat j) = Ok v ->
      sample !! c = Some (match c with
                          | O => v - x0
                          | S O => v - y0
                          | _ => v
                          end)%Q.
Proof.
  apply (reset_then_playback 1 1 (-1) 4 Examples.walk_world 3).
  - repeat constructor.
  - simpl. lia.
  - lia.
  - lia.
Defined.

(** A reset that fails does not roll back: with a start outside the
    trajectory it raises [IndexError] after the distance, the cursor and the
    working copy have been overwritten, and leaves the out-of-range cursor
    and a copy without offset; with a single channel it raises [IndexError]
    after channel 0 has been offset. *)
Theorem reset_failure_keeps_changes (len_q_pos len_qvel s : Z) (w : World)
    (L : nat) (row0 : list Q) :
  Np.rectangular L (trajectory (self w)) ->
  trajectory (self w) !! 0%nat = Some row0 ->
  (Z.of_nat L <= s \/ s < - Z.of_nat L) \/ length (trajectory (self w)) = 1%nat ->
  exists w',
    reset_trajectory len_q_pos len_qvel (Some s) w = (Raise IndexError, w') /\
    x_dist (self w') = 0%Q /\
    subtraj_step_no (self w') = s /\
    trajectory (self w') = trajectory (self w) /\
    (Z.of_nat L <= s \/ s < - Z.of_nat L ->
     subtraj (self w') = trajectory (self w)) /\
    (- Z.of_nat L <= s < Z.of_nat L ->
     exists x0, Py.getitem row0 s = Ok x0 /\
                subtraj (self w') = [(fun x => x - x0)%Q <$> row0]).
Proof.
  intros Hrect Hrow0 Hbad. rewrite reset_trajectory_explicit.
  assert (length row0 = L) as HL.
  { eapply Forall_lookup_1 in Hrect; [exact Hrect | exact Hrow0]. }
  unfold offset_and_read, bind, modify, gets, lift, ret. simpl.
  change 0 with (Z.of_nat 0) at 1. rewrite (getitem2_lookup _ _ _ _ Hrow0).
  destruct (Z.lt_ge_cases s (- Z.of_nat L)) as [Hlow|Hlow];
    [|destruct (Z.lt_ge_cases s (Z.of_nat L)) as [Hhigh|Hhigh]].
  - pose proof (index_out_of_range (length row0) s) as Hidx.
    unfold Py.getitem at 1. rewrite Hidx by lia.
    eexists. do 4 (split; [reflexivity|]). simpl.
    split; [reflexivity|]. intros Hin. exfalso. lia.
  - destruct Hbad as [Hout|Hone]; [lia|].
    destruct (index_valid (length row0) s) as [k Hk]; [lia|].
    destruct (getitem_index row0 s k Hk) as (x0 & _ & Hx0).
    rewrite Hx0. simpl.
    destruct (trajectory (self w)) as [|r0 [|r1 rest]] eqn:Ht;
      try discriminate. injection Hrow0 as ->.
    simpl. eexists. split; [reflexivity|]. simpl. rewrite ?Ht.
    do 3 (split; [reflexivity|]). split.
    + intros Hout. exfalso. lia.
    + intros _. exists x0. split; reflexivity.
  - pose proof (index_out_of_range (length row0) s) as Hidx.
    unfold Py.getitem at 1. rewrite Hidx by lia.
    eexists. do 4 (split; [reflexivity|]). simpl.
    split; [reflexivity|]. intros Hin. exfalso. lia.
Qed.

Lemma reset_failure_keeps_changes_witness :
  exists w',
    reset_trajectory 1 1 (Some 3) Examples.walk_world = (Raise IndexError, w') /\
    x_dist (self w') = 0%Q /\
    subtraj_step_no (self w') = 3 /\
    trajectory (self w') = trajectory (self Examples.walk_world) /\
    (3 <= 3 \/ 3 < - 3 ->
     subtraj (self w') = trajectory (self Examples.walk_world)) /\
    (- 3 <= 3 < 3 ->
     exists x0, Py.getitem [1; 3; 6]%Q 3 = Ok x0 /\
                subtraj (self w') = [(fun x => x - x0)%Q <$> [1; 3; 6]%Q]).
Proof.
  apply (reset_failure_keeps_changes 1 1 3 Examples.walk_world 3 [1; 3; 6]%Q).
  - repeat constructor.
  - reflexivity.
  - left. left. lia.
Defined.

(** ** Construction: errors *)

Lemma npz_get_missing (key : string) (archive : npz) :
  npz_mem key archive = false -> npz_get key archive = Raise KeyError.
Proof.
  unfold npz_mem, npz_get. destruct (decide (key = "split_points"%string)).
  - destruct (split_points_array archive); [|reflexivity].
    intros H. apply bool_decide_eq_false in H. destruct H. eauto.
  - destruct (arrays archive !! key); [|reflexivity].
    intros H. apply bool_decide_eq_false in H. destruct H. eauto.
Qed.

Lemma load_channels_missing (archive : npz) (ks : list string) (key : string) :
  key ∈ ks -> npz_mem key archive = false ->
  load_channels archive ks = Raise KeyError.
Proof.
  intros Hin Hmiss. induction ks as [|k ks IH]; [inversion Hin|]. simpl.
  destruct (npz_get k archive) as [a|e] eqn:Hget; simpl.
  - apply elem_of_cons in Hin as [->|Hin].
    + rewrite (npz_get_missing _ _ Hmiss) in Hget. discriminate.
    + rewrite (IH Hin). reflexivity.
  - unfold npz_get in Hget.
    destruct (decide (k = "split_points"%string)).
    + destruct (split_points_array archive); simpl in Hget; congruence.
    + destruct (arrays archive !! k); simpl in Hget; congruence.
Qed.

(** A key of the (updated) keys list that the archive does not hold makes
    the construction fail with [KeyError]; the caller's list has been
    changed all the same. *)
Theorem init_missing_key (cubic_spline : list Q -> Q -> Q) (kref : loc)
    (archive : npz) (dt cdt : Q) (ignore_keys : list string) (h : store)
    (ks ks' : list string) (key : string) :
  h !! kref = Some ks ->
  npz_mem "rel_feet_xpos_r" archive = false ->
  remove_each ignore_keys (keys_with_goal archive ks) = Ok ks' ->
  key ∈ ks' -> npz_mem key archive = false ->
  __init__ cubic_spline kref archive dt cdt ignore_keys h
  = (Raise KeyError, <[kref := ks']> h).
Proof.
  intros Hks Hfeet Hrm Hin Hmiss.
  init_keys_steps Hks Hfeet Hrm.
  unfold bind, gets, lift.
  rewrite lookup_total_insert_eq, (load_channels_missing _ _ _ Hin Hmiss).
  reflexivity.
Qed.

Lemma init_missing_key_witness :
  __init__ Examples.hold Examples.caller_keys Examples.goal_archive
    (1 # 100) (5 # 1000) ["pos"%string]
    (<[Examples.caller_keys := ["pos"; "q_knee"]%string]> ∅)
  = (Raise KeyError,
     <[Examples.caller_keys := ["q_knee"; "goal"]%string]>
       (<[Examples.caller_keys := ["pos"; "q_knee"]%string]> ∅)).
Proof.
  apply (init_missing_key Examples.hold Examples.caller_keys
           Examples.goal_archive (1 # 100) (5 # 1000) ["pos"%string] _
           ["pos"; "q_knee"]%string ["q_knee"; "goal"]%string "q_knee"%string).
  - reflexivity.
  - reflexivity.
  - reflexivity.
  - repeat constructor.
  - reflexivity.
Defined.

Lemma remove_absent (x : string) (l : list string) :
  x ∉ l -> Py.remove x l = Raise ValueError.
Proof.
  induction l as [|y l IH]; intros Hx; simpl; [reflexivity|].
  apply not_elem_of_cons in Hx as [Hne Hx].
  destruct (decide (x = y)); [contradiction|]. rewrite (IH Hx). reflexivity.
Qed.

Lemma remove_ignored_fails (kref : loc) (done rest : list string) (ik : string) :
  forall (h : store) (ks ks2 : list string),
    h !! kref = Some ks ->
    remove_each done ks = Ok ks2 ->
    ik ∉ ks2 ->
    remove_ignored kref (done ++ ik :: rest) h
    = (Raise ValueError, <[kref := ks2]> h).
Proof.
  induction done as [|d done IH]; intros h ks ks2 Hks Hrm Hik; simpl in *.
  - injection Hrm as <-. unfold bind, gets, lift.
    rewrite (lookup_total_correct _ _ _ Hks), (remove_absent _ _ Hik).
    rewrite insert_id by exact Hks. reflexivity.
  - destruct (Py.remove d ks) as [r|] eqn:Hr; simpl in Hrm; [|discriminate].
    unfold bind, gets, lift, modify. simpl.
    rewrite (lookup_total_correct _ _ _ Hks), Hr. simpl.
    rewrite (IH (<[kref := r]> h) r ks2);
      [| apply lookup_insert_eq | exact Hrm | exact Hik].
    rewrite insert_insert_eq. reflexivity.
Qed.

(** An entry of [ignore_keys] that is not (or no longer) in the keys list
    makes the construction fail with [ValueError]; the entries before it have
    been removed from the caller's list, and stay removed. *)
Theorem init_ignore_key_absent (cubic_spline : list Q -> Q -> Q) (kref : loc)
    (archive : npz) (dt cdt : Q) (done rest : list string) (ik : string)
    (h : store) (ks ks2 : list string) :
  h !! kref = Some ks ->
  npz_mem "rel_feet_xpos_r" archive = false ->
  remove_each done (keys_with_goal archive ks) = Ok ks2 ->
  ik ∉ ks2 ->
  __init__ cubic_spline kref archive dt cdt (done ++ ik :: rest) h
  = (Raise ValueError, <[kref := ks2]> h).
Proof.
  intros Hks Hfeet Hrm Hik. unfold __init__.
  rewrite (bind_ok _ _ _ _ _ (init_goal_step _ _ _ _ Hks)).
  rewrite (bind_ok _ _ _ _ _ (init_feet_step_skip _ _ _ Hfeet)).
  unfold bind at 1.
  rewrite (remove_ignored_fails kref done rest ik _ _ ks2
             (lookup_insert_eq _ _ _) Hrm Hik).
  rewrite insert_insert_eq. reflexivity.
Qed.

(** Ignoring the same key twice: the second removal fails. *)
Lemma init_ignore_key_absent_witness :
  __init__ Examples.hold Examples.caller_keys Examples.scenario_archive
    (1 # 100) (5 # 1000) ["vel"; "vel"]%string Examples.scenario_store
  = (Raise ValueError,
     <[Examples.caller_keys := ["pos"]%string]> Examples.scenario_store).
Proof.
  apply (init_ignore_key_absent Examples.hold Examples.caller_keys
           Examples.scenario_archive (1 # 100) (5 # 1000) ["vel"%string] []
           "vel"%string Examples.scenario_store ["pos"; "vel"]%string
           ["pos"]%string).
  - reflexivity.
  - reflexivity.
  - reflexivity.
  - intros H. apply list_elem_of_singleton in H. discriminate.
Defined.

(** A control time step of zero makes the construction fail with
    [ZeroDivisionError] when the factor is computed, after the channels
    have been loaded. *)
Theorem init_zero_control_dt (cubic_spline : list Q -> Q -> Q) (kref : loc)
    (archive : npz) (dt cdt : Q) (ignore_keys : list string) (h : store)
    (ks ks' : list string) (traj : Np.ndarray) (L : nat) :
  h !! kref = Some ks ->
  npz_mem "rel_feet_xpos_r" archive = false ->
  remove_each ignore_keys (keys_with_goal archive ks) = Ok ks' ->
  load_channels archive ks' = Ok traj ->
  traj <> [] -> Np.rectangular L traj ->
  (cdt == 0)%Q -> ~ (dt == 0)%Q ->
  __init__ cubic_spline kref archive dt cdt ignore_keys h
  = (Raise ZeroDivisionError, <[kref := ks']> h).
Proof.
  intros Hks Hfeet Hrm Hload Hne Hrect Hcdt Hdt.
  assert (Np.shape1 traj = Ok (Z.of_nat L)) as Hshape.
  { destruct traj as [|r t']; [congruence|].
    apply (shape1_rectangular L _ r Hrect). reflexivity. }
  assert (Qeq_bool dt cdt = false) as Hneq.
  { destruct (Qeq_bool dt cdt) eqn:E; [|reflexivity].
    apply Qeq_bool_iff in E. rewrite Hcdt in E. contradiction. }
  apply Qeq_bool_iff in Hcdt.
  init_keys_steps Hks Hfeet Hrm.
  unfold bind, gets, lift, ret, raise.
  rewrite lookup_total_insert_eq, Hload, (array_rectangular L traj Hrect).
  rewrite Hneq, Hcdt.
  destruct (split_points_array archive) as [sp|]; simpl.
  - reflexivity.
  - rewrite Hshape. reflexivity.
Qed.

Lemma init_zero_control_dt_witness :
  __init__ Examples.hold Examples.caller_keys Examples.scenario_archive
    (1 # 100) 0 [] Examples.scenario_store
  = (Raise ZeroDivisionError,
     <[Examples.caller_keys := ["pos"; "vel"]%string]> Examples.scenario_store).
Proof.
  apply (init_zero_control_dt Examples.hold Examples.caller_keys
           Examples.scenario_archive (1 # 100) 0 [] Examples.scenario_store
           ["pos"; "vel"]%string ["pos"; "vel"]%string
           Examples.scenario_trajectory 10).
  - reflexivity.
  - reflexivity.
  - reflexivity.
  - reflexivity.
  - discriminate.
  - repeat constructor.
  - reflexivity.
  - intros H. discriminate H.
Defined.

(** ** Construction: what a resampled instance satisfies *)

Lemma round_monotone (x y : Q) : (x <= y)%Q -> Py.round x <= Py.round y.
Proof.
  intros Hxy. unfold Py.round.
  pose proof (Qfloor_resp_le _ _ Hxy) as Hfl.
  destruct (Z.eq_dec (Qfloor x) (Qfloor y)) as [Heq|Hne].
  - rewrite <- Heq.
    assert (x - inject_Z (Qfloor x) <= y - inject_Z (Qfloor x))%Q as Hd.
    { unfold Qminus. apply Qplus_le_l. exact Hxy. }
    destruct (Qcompare (x - inject_Z (Qfloor x)) (1 # 2)) eqn:Hcx;
      destruct (Qcompare (y - inject_Z (Qfloor x)) (1 # 2)) eqn:Hcy;
      try (destruct (Z.even (Qfloor x)); lia); try lia; exfalso.
    + apply Qeq_alt in Hcx. apply Qlt_alt in Hcy. rewrite Hcx in Hd.
      exact (Qle_not_lt _ _ Hd Hcy).
    + apply Qgt_alt in Hcx. apply Qeq_alt in Hcy. rewrite Hcy in Hd.
      exact (Qle_not_lt _ _ Hd Hcx).
    + apply Qgt_alt in Hcx. apply Qlt_alt in Hcy.
      exact (Qle_not_lt _ _ Hd (Qlt_trans _ _ _ Hcy Hcx)).
  - destruct (Qcompare (x - inject_Z (Qfloor x)) (1 # 2));
      destruct (Qcompare (y - inject_Z (Qfloor y)) (1 # 2));
      try destruct (Z.even (Qfloor x)); try destruct (Z.even (Qfloor y)); lia.
Qed.

Lemma round_zero (f : Q) : Py.round (inject_Z 0 * f) = 0.
Proof.
  rewrite (round_proper _ 0%Q); [reflexivity|]. apply Qmult_0_l.
Qed.

Lemma rescaled_sorted (g : Z -> Z) (sp : list Z) :
  (forall p q, p <= q -> g p <= g q) ->
  StronglySorted Z.le sp -> StronglySorted Z.le (g <$> sp).
Proof.
  intros Hg H. induction H as [|p sp Hs IH Hall]; simpl; constructor.
  - exact IH.
  - apply Forall_fmap. eapply Forall_impl; [exact Hall|].
    intros q Hq. simpl. apply Hg, Hq.
Qed.

Lemma rescale_monotone (f : Q) (p q : Z) :
  (0 <= f)%Q -> p <= q ->
  Py.round (inject_Z p * f) <= Py.round (inject_Z q * f).
Proof.
  intros Hf Hpq. apply round_monotone, Qmult_le_compat_r; [|exact Hf].
  rewrite <- Zle_Qle. exact Hpq.
Qed.

(** Construction with different time steps and a positive factor, from an
    archive whose split points are non-decreasing positions of the recorded
    trajectory: the instance holds split points that are again non-decreasing
    positions of the resampled trajectory, as many as before; a first split
    point 0 stays 0 and a last split point at the end of the recording is at
    the end of the resampled trajectory. *)
Theorem init_split_points_consistent (cubic_spline : list Q -> Q -> Q)
    (kref : loc) (archive : npz) (dt cdt : Q) (ignore_keys : list string)
    (h : store) (ks ks' : list string) (traj : Np.ndarray) (L : nat) :
  h !! kref = Some ks ->
  npz_mem "rel_feet_xpos_r" archive = false ->
  remove_each ignore_keys (keys_with_goal archive ks) = Ok ks' ->
  load_channels archive ks' = Ok traj ->
  traj <> [] -> Np.rectangular L traj -> (4 <= L)%nat ->
  ~ (dt == cdt)%Q -> (0 < dt / cdt)%Q ->
  StronglySorted Z.le (initial_split_points archive L) ->
  Forall (fun p => 0 <= p <= Z.of_nat L) (initial_split_points archive L) ->
  Py.round (inject_Z (Z.of_nat L) * (dt / cdt)) < 2 ^ 31 ->
  exists (o : Trajectory) (h' : store) (L' : Z),
    __init__ cubic_spline kref archive dt cdt ignore_keys h = (Ok o, h') /\
    L' = Py.round (inject_Z (Z.of_nat L) * (dt / cdt)) /\ 0 <= L' /\
    Np.rectangular (Z.to_nat L') (trajectory o) /\
    length (trajectory o) = length traj /\
    StronglySorted Z.le (split_points o) /\
    Forall (fun p => 0 <= p <= L') (split_points o) /\
    length (split_points o) = length (initial_split_points archive L) /\
    n_repeating_steps o = Z.of_nat (length (split_points o)) - 1 /\
    (head (initial_split_points archive L) = Some 0 ->
     head (split_points o) = Some 0) /\
    (last (initial_split_points archive L) = Some (Z.of_nat L) ->
     last (split_points o) = Some L').
Proof.
  intros Hks Hfeet Hrm Hload Hne Hrect H4 Hdt Hpos Hsorted Hin Hfit.
  destruct (init_resamples cubic_spline kref archive dt cdt ignore_keys h ks ks'
              traj L Hks Hfeet Hrm Hload Hne Hrect H4 Hdt Hpos)
    as (x_new & Hlen & _ & Hinit).
  set (g := fun p => Py.round (inject_Z p * (dt / cdt))).
  assert (0 <= dt / cdt)%Q as Hf by apply Qlt_le_weak, Hpos.
  assert (forall p q, p <= q -> g p <= g q) as Hmono.
  { intros p q Hpq. apply rescale_monotone; assumption. }
  assert (g 0 = 0) as Hg0 by apply round_zero.
  assert ((fun p => Np.astype_int32
                      (Py.round (inject_Z p * sampling_factor dt cdt)))
            <$> initial_split_points archive L
          = g <$> initial_split_points archive L) as Hsp.
  { apply list_fmap_ext. intros j p Hp.
    rewrite (round_proper _ (inject_Z p * (dt / cdt))%Q)
      by (rewrite sampling_factor_quotient; reflexivity).
    apply astype_int32_in_range.
    eapply Forall_lookup_1 in Hin; [|exact Hp]. simpl in Hin.
    pose proof (Hmono 0 p (proj1 Hin)) as H0.
    pose proof (Hmono p (Z.of_nat L) (proj2 Hin)) as H1.
    fold (g p). fold (g (Z.of_nat L)) in Hfit. lia. }
  rewrite Hsp in Hinit.
  destruct (resampled_on_shape cubic_spline x_new traj) as [Hc Hr].
  rewrite Hlen in Hr.
  eexists. eexists. exists (g (Z.of_nat L)).
  split; [exact Hinit|]. simpl.
  split; [reflexivity|].
  split; [rewrite <- Hg0; apply Hmono; lia|].
  split; [exact Hr|]. split; [exact Hc|].
  split; [apply rescaled_sorted; assumption|].
  split.
  { apply Forall_fmap. eapply Forall_impl; [exact Hin|].
    intros p [Hp0 HpL]. simpl. rewrite <- Hg0 at 1.
    split; apply Hmono; assumption. }
  split; [apply length_fmap|].
  split; [rewrite length_fmap; reflexivity|].
  split.
  - destruct (initial_split_points archive L) as [|p sp]; [discriminate|].
    simpl. intros [= ->]. rewrite Hg0. reflexivity.
  - intros Hlast. rewrite fmap_last, Hlast. reflexivity.
Qed.

(** The default time steps (factor 0.2) on twenty samples with the split
    points [[0, 18, 20]]. *)
Lemma init_split_points_consistent_witness :
  exists (o : Trajectory) (h' : store) (L' : Z),
    __init__ Examples.hold Examples.caller_keys Examples.short_archive
      (2 # 1000) (1 # 100) [] Examples.scenario_store = (Ok o, h') /\
    L' = Py.round (inject_Z (Z.of_nat 20) * ((2 # 1000) / (1 # 100))) /\
    0 <= L' /\
    Np.rectangular (Z.to_nat L') (trajectory o) /\
    length (trajectory o) = 2%nat /\
    StronglySorted Z.le (split_points o) /\
    Forall (fun p => 0 <= p <= L') (split_points o) /\
    length (split_points o) = 3%nat /\
    n_repeating_steps o = Z.of_nat (length (split_points o)) - 1 /\
    (Some 0 = Some 0 -> head (split_points o) = Some 0) /\
    (Some 20 = Some 20 -> last (split_points o) = Some L').
Proof.
  apply (init_split_points_consistent Examples.hold Examples.caller_keys
           Examples.short_archive (2 # 1000) (1 # 100) []
           Examples.scenario_store ["pos"; "vel"]%string ["pos"; "vel"]%string
           (((fun j => inject_Z (Z.of_nat j)) <$> seq 0 20)
              :: [replicate 20 1%Q]) 20).
  - reflexivity.
  - reflexivity.
  - reflexivity.
  - reflexivity.
  - discriminate.
  - repeat constructor.
  - lia.
  - intros H. discriminate H.
  - reflexivity.
  - repeat constructor; lia.
  - repeat constructor; lia.
  - reflexivity.
Defined.

(** ** Sub-trajectory extraction on valid split points *)

Lemma sorted_lookup_le (sp : list Z) (i j : nat) (a b : Z) :
  StronglySorted Z.le sp ->
  sp !! i = Some a -> sp !! j = Some b -> (i <= j)%nat -> a <= b.
Proof.
  intros H. revert i j.
  induction H as [|x l _ IH Hx]; intros [|i] [|j]; simpl;
    try discriminate; try lia.
  - intros [= <-] [= <-] _. lia.
  - intros [= <-] Hb _. rewrite Forall_forall in Hx.
    apply Hx. eapply list_elem_of_lookup_2, Hb.
  - intros Ha Hb Hij. apply (IH i j); [assumption | assumption | lia].
Qed.

(** Non-decreasing split points that are positions of the trajectory: a
    repeat [i >= 0], [N >= 0] with [i + N <= len(split_points) - 1] is
    extracted (as an array without samples when it is empty) unless it starts
    at the very end of the trajectory, where the read of the initial
    position raises [IndexError]. *)
Theorem valid_repeat_extraction (o : Trajectory) (L : nat) (i N : Z) :
  Np.rectangular L (trajectory o) -> trajectory o <> [] ->
  StronglySorted Z.le (split_points o) ->
  Forall (fun p => 0 <= p <= Z.of_nat L) (split_points o) ->
  0 <= i -> 0 <= N -> i + N <= Z.of_nat (length (split_points o)) - 1 ->
  exists a b,
    Py.getitem (split_points o) i = Ok a /\
    Py.getitem (split_points o) (i + N) = Ok b /\
    0 <= a <= b /\ b <= Z.of_nat L /\
    ((a < Z.of_nat L /\
      exists x0 seg,
        Np.getitem2 (trajectory o) 0 a = Ok x0 /\
        _get_traj_gait_sub_steps o i N = Ok seg /\
        seg = Np.isub_row (Np.columns (trajectory o) a b) 0 x0 /\
        length seg = length (trajectory o) /\
        Np.rectangular (Z.to_nat (b - a)) seg) \/
     (a = Z.of_nat L /\ b = Z.of_nat L /\
      _get_traj_gait_sub_steps o i N = Raise IndexError)).
Proof.
  intros Hrect Hne Hsorted Hin Hi HN HiN.
  destruct (lookup_lt_is_Some_2 (split_points o) (Z.to_nat i)) as [a Ha]; [lia|].
  destruct (lookup_lt_is_Some_2 (split_points o) (Z.to_nat (i + N))) as [b Hb];
    [lia|].
  pose proof (sorted_lookup_le _ _ _ _ _ Hsorted Ha Hb ltac:(lia)) as Hab.
  pose proof (Forall_lookup_1 _ _ _ _ Hin Ha) as Ha'.
  pose proof (Forall_lookup_1 _ _ _ _ Hin Hb) as Hb'. simpl in Ha', Hb'.
  apply getitem_nat in Ha, Hb. rewrite Z2Nat.id in Ha, Hb by lia.
  exists a, b. do 2 (split; [assumption|]).
  split; [lia|]. split; [lia|].
  assert (exists row0, trajectory o !! 0%nat = Some row0) as [row0 Hrow0].
  { destruct (trajectory o); [congruence|]. eexists. reflexivity. }
  assert (length row0 = L) as Hlen.
  { eapply Forall_lookup_1 in Hrect; [exact Hrect | exact Hrow0]. }
  unfold _get_traj_gait_sub_steps, Np.getitem2. rewrite Ha, Hb. simpl.
  rewrite (getitem_zero _ _ Hrow0). simpl.
  destruct (Z.eq_dec a (Z.of_nat L)) as [HaL|HaL].
  - right. split; [exact HaL|]. split; [lia|].
    rewrite getitem_out_of_range by lia. reflexivity.
  - left. split; [lia|].
    destruct (lookup_lt_is_Some_2 row0 (Z.to_nat a)) as [x0 Hx0]; [lia|].
    apply getitem_nat in Hx0. rewrite Z2Nat.id in Hx0 by lia.
    exists x0. eexists. rewrite Hx0. simpl.
    split; [reflexivity|]. split; [reflexivity|].
    split; [reflexivity|]. split.
    + unfold Np.isub_row. rewrite length_alter. unfold Np.columns.
      apply length_fmap.
    + apply rectangular_isub_row.
      apply (rectangular_columns L); [exact Hrect | lia | lia].
Qed.

Lemma valid_repeat_extraction_witness :
  exists a b,
    Py.getitem (split_points Examples.gait_object) 1 = Ok a /\
    Py.getitem (split_points Examples.gait_object) (1 + 1) = Ok b /\
    0 <= a <= b /\ b <= Z.of_nat 120 /\
    ((a < Z.of_nat 120 /\
      exists x0 seg,
        Np.getitem2 (trajectory Examples.gait_object) 0 a = Ok x0 /\
        _get_traj_gait_sub_steps Examples.gait_object 1 1 = Ok seg /\
        seg = Np.isub_row (Np.columns (trajectory Examples.gait_object) a b) 0 x0 /\
        length seg = length (trajectory Examples.gait_object) /\
        Np.rectangular (Z.to_nat (b - a)) seg) \/
     (a = Z.of_nat 120 /\ b = Z.of_nat 120 /\
      _get_traj_gait_sub_steps Examples.gait_object 1 1 = Raise IndexError)).
Proof.
  apply (valid_repeat_extraction Examples.gait_object 120 1 1).
  - repeat constructor.
  - discriminate.
  - repeat constructor; lia.
  - repeat constructor; simpl; lia.
  - lia.
  - lia.
  - simpl. lia.
Defined.

(** ** Playback of a fresh instance *)

(** An instance that has just been constructed and has not been reset plays
    the stored trajectory itself, from its first sample and without any
    offset of the position channels. *)
Theorem init_then_playback (cubic_spline : list Q -> Q -> Q) (kref : loc)
    (archive : npz) (dt cdt : Q) (ignore_keys : list string) (h h' : store)
    (o : Trajectory) (L n : nat) (g : Np.RandomState) (k : nat) :
  __init__ cubic_spline kref archive dt cdt ignore_keys h = (Ok o, h') ->
  Np.rectangular L (trajectory o) -> trajectory o <> [] -> (n <= L)%nat ->
  exists samples,
    length samples = n /\
    (forall (j : nat) (x : list Q),
       samples !! j = Some x -> Np.column (trajectory o) (Z.of_nat j) = Ok x) /\
    get_next_samples n (mkWorld o g k)
    = (Ok samples, mkWorld (set_subtraj_step_no (Z.of_nat n) o) g k).
Proof.
  intros Hinit Hrect Hne Hn.
  destruct (init_Ok_inv cubic_spline kref archive dt cdt ignore_keys h h' o Hinit)
    as (_ & _ & Hsub & Hc & _).
  destruct (trajectory o) as [|row0 t'] eqn:Ht; [congruence|].
  destruct (get_next_samples_before_end n o g k L row0)
    as (samples & Hlen & Hcols & Hrun).
  - rewrite Hsub. exact Hrect.
  - rewrite Hsub. reflexivity.
  - rewrite Hc. lia.
  - rewrite Hc. lia.
  - exists samples. split; [exact Hlen|]. split.
    + intros j x Hx. apply Hcols in Hx. rewrite Hsub, Hc in Hx. exact Hx.
    + rewrite Hrun, Hc. reflexivity.
Qed.

Lemma init_then_playback_witness :
  exists samples,
    length samples = 3%nat /\
    (forall (j : nat) (x : list Q),
       samples !! j = Some x ->
       Np.column (trajectory Examples.scenario_object) (Z.of_nat j) = Ok x) /\
    get_next_samples 3 (mkWorld Examples.scenario_object Examples.generator 0)
    = (Ok samples,
       mkWorld (set_subtraj_step_no (Z.of_nat 3) Examples.scenario_object)
         Examples.generator 0).
Proof.
  apply (init_then_playback Examples.hold Examples.caller_keys
           Examples.scenario_archive (1 # 100) (5 # 1000) []
           Examples.scenario_store
           (<[Examples.caller_keys := ["pos"; "vel"]%string]>
              Examples.scenario_store)
           Examples.scenario_object 20 3 Examples.generator 0).
  - vm_compute. reflexivity.
  - repeat constructor.
  - discriminate.
  - lia.
Defined.

(** ** Datasets *)

Lemma slice_without_last {A} (l : list A) :
  Py.slice l 0 (-1) = take (length l - 1) l.
Proof.
  unfold Py.slice, Py.clamp. simpl.
  replace (Z.to_nat (Z.min 0 (Z.of_nat (length l)))) with 0%nat by lia.
  replace (Z.to_nat (Z.max (-1 + Z.of_nat (length l)) 0))
    with (length l - 1)%nat by lia.
  rewrite Nat.sub_0_r. reflexivity.
Qed.

Lemma slice_from {A} (l : list A) (a : nat) :
  Py.slice l (Z.of_nat a) (Z.of_nat (length l)) = drop a l.
Proof.
  unfold Py.slice, Py.clamp.
  destruct (Z.ltb_spec (Z.of_nat (length l)) 0); [lia|].
  destruct (Z.ltb_spec (Z.of_nat a) 0); [lia|].
  rewrite Z.min_id, Nat2Z.id.
  destruct (Nat.le_gt_cases a (length l)) as [Hle|Hgt].
  - replace (Z.to_nat (Z.min (Z.of_nat a) (Z.of_nat (length l)))) with a by lia.
    apply take_ge. rewrite length_drop. lia.
  - replace (Z.to_nat (Z.min (Z.of_nat a) (Z.of_nat (length l))))
      with (length l) by lia.
    rewrite Nat.sub_diag, drop_all, (drop_ge l a) by lia. reflexivity.
Qed.

Lemma slice_inner {A} (l : list A) (a b : nat) :
  (0 < b)%nat ->
  Py.slice l (Z.of_nat a) (- Z.of_nat b)
  = take (length l - b - a) (drop a l).
Proof.
  intros Hb. unfold Py.slice, Py.clamp.
  destruct (Z.ltb_spec (- Z.of_nat b) 0); [|lia].
  destruct (Z.ltb_spec (Z.of_nat a) 0); [lia|].
  destruct (Nat.le_gt_cases a (length l)) as [Hle|Hgt].
  - replace (Z.to_nat (Z.min (Z.of_nat a) (Z.of_nat (length l)))) with a by lia.
    f_equal. lia.
  - replace (Z.to_nat (Z.min (Z.of_nat a) (Z.of_nat (length l))))
      with (length l) by lia.
    rewrite drop_all, (drop_ge l a) by lia. rewrite !take_nil. reflexivity.
Qed.

Lemma filter_all {A} (P : A -> Prop) `{!forall x, Decision (P x)} (l : list A) :
  Forall P l -> filter P l = l.
Proof.
  induction 1 as [|x l Hx _ IH]; [reflexivity|].
  rewrite filter_cons_True by exact Hx. rewrite IH. reflexivity.
Qed.

Lemma setitem_fresh {A} (k : string) (v : A) (d : list (string * A)) :
  k ∉ d.*1 -> Dict.setitem k v d = d ++ [(k, v)].
Proof.
  induction d as [|[k' v'] d IH]; simpl; intros Hk; [reflexivity|].
  apply not_elem_of_cons in Hk as [Hne Hk].
  destruct (decide (k = k')); [contradiction|]. rewrite (IH Hk). reflexivity.
Qed.

Lemma of_pairs_from {A} (pairs : list (string * A)) :
  forall acc,
    NoDup ((acc ++ pairs).*1) ->
    foldl (fun d kv => Dict.setitem (fst kv) (snd kv) d) acc pairs = acc ++ pairs.
Proof.
  induction pairs as [|[k v] pairs IH]; intros acc Hnd; simpl.
  - rewrite app_nil_r. reflexivity.
  - rewrite setitem_fresh.
    + rewrite IH; rewrite <- app_assoc; [reflexivity | exact Hnd].
    + rewrite fmap_app in Hnd. apply NoDup_app in Hnd as (_ & Hdisj & _).
      intros Hin. apply (Hdisj k Hin). simpl. left.
Qed.

(** Distinct keys: the dictionary holds the pairs as they come. *)
Lemma of_pairs_NoDup {A} (pairs : list (string * A)) :
  NoDup (pairs.*1) -> Dict.of_pairs pairs = pairs.
Proof. intros H. unfold Dict.of_pairs. rewrite of_pairs_from; auto. Qed.

Lemma delitem_absent {A} (k : string) (d : list (string * A)) :
  k ∉ d.*1 -> Dict.delitem k d = Raise KeyError.
Proof.
  induction d as [|[k' v'] d IH]; simpl; intros Hk; [reflexivity|].
  apply not_elem_of_cons in Hk as [Hne Hk].
  destruct (decide (k = k')); [contradiction|]. rewrite (IH Hk). reflexivity.
Qed.

Lemma delitem_present {A} (k : string) (d : list (string * A)) :
  NoDup (d.*1) -> k ∈ d.*1 ->
  Dict.delitem k d = Ok (filter (fun kv => kv.1 <> k) d).
Proof.
  induction d as [|[k' v'] d IH]; simpl; intros Hnd Hk; [inversion Hk|].
  apply NoDup_cons in Hnd as [Hk' Hnd].
  destruct (decide (k = k')) as [->|Hne].
  - rewrite filter_cons_False by (simpl; congruence).
    rewrite filter_all; [reflexivity|].
    apply Forall_forall. intros [k2 v2] Hin Heq. simpl in Heq. subst k2.
    apply Hk'.
    apply (list_elem_of_fmap_2 fst) in Hin. exact Hin.
  - apply elem_of_cons in Hk as [|Hk]; [contradiction|].
    rewrite (IH Hnd Hk). simpl.
    rewrite filter_cons_True by (simpl; congruence). reflexivity.
Qed.

Lemma filter_keys_elem {A} (P : string -> Prop) `{!forall x, Decision (P x)}
    (d : list (string * A)) (k : string) :
  k ∈ (filter (fun kv => P kv.1) d).*1 <-> P k /\ k ∈ d.*1.
Proof.
  rewrite !list_elem_of_fmap. split.
  - intros ([k' v] & -> & Hin). apply list_elem_of_filter in Hin as [HP Hin].
    split; [exact HP|]. exists (k', v). auto.
  - intros (HP & [k' v] & -> & Hin). exists (k', v). split; [reflexivity|].
    apply list_elem_of_filter. auto.
Qed.

Lemma filter_keys_NoDup {A} (P : string * A -> Prop)
    `{!forall x, Decision (P x)} (d : list (string * A)) :
  NoDup (d.*1) -> NoDup ((filter P d).*1).
Proof.
  intros Hnd. apply (sublist_NoDup _ (d.*1)); try exact Hnd.
  apply fmap_sublist, sublist_filter.
Qed.

(** The deletions succeed exactly when the ignored keys are distinct keys of
    the dictionary. *)
Lemma delitems_ok {A} (ik : list string) :
  forall d : list (string * A),
    NoDup (d.*1) -> NoDup ik -> ik ⊆ d.*1 ->
    Dict.delitems ik d = Ok (filter (fun kv => kv.1 ∉ ik) d).
Proof.
  induction ik as [|k ik IH]; intros d Hnd Hik Hsub; simpl.
  - rewrite filter_all; [reflexivity|].
    apply Forall_forall. intros kv _ Hin. inversion Hin.
  - apply NoDup_cons in Hik as [Hk Hik].
    rewrite delitem_present; [|exact Hnd | apply Hsub; left]. simpl.
    rewrite IH.
    + f_equal. rewrite list_filter_filter. apply list_filter_iff.
      intros [k' v]. simpl. rewrite not_elem_of_cons. tauto.
    + apply filter_keys_NoDup, Hnd.
    + exact Hik.
    + intros x Hx.
      pose proof (filter_keys_elem (fun k' => k' <> k) d x) as Hf.
      apply Hf. split.
      * intros ->. contradiction.
      * apply Hsub. right. exact Hx.
Qed.

Lemma delitems_error {A} (ik : list string) :
  forall d : list (string * A),
    NoDup (d.*1) -> ~ (NoDup ik /\ ik ⊆ d.*1) ->
    Dict.delitems ik d = Raise KeyError.
Proof.
  induction ik as [|k ik IH]; intros d Hnd Hbad; simpl.
  - destruct Hbad. split; [constructor|]. intros x Hx. inversion Hx.
  - destruct (decide (k ∈ d.*1)) as [Hin|Hout].
    + rewrite delitem_present by assumption. simpl.
      apply IH; [apply filter_keys_NoDup, Hnd|].
      intros [Hik Hsub]. apply Hbad. split.
      * apply NoDup_cons. split; [|exact Hik].
        intros Hk. apply Hsub in Hk.
        pose proof (filter_keys_elem (fun k' => k' <> k) d k) as Hf.
        apply Hf in Hk as [Hk _].
        congruence.
      * intros x Hx. apply elem_of_cons in Hx as [->|Hx]; [exact Hin|].
        apply Hsub in Hx.
        pose proof (filter_keys_elem (fun k' => k' <> k) d x) as Hf.
        apply Hf in Hx as [_ Hx]. exact Hx.
    + rewrite delitem_absent by exact Hout. reflexivity.
Qed.

(** The transpose of a rectangular array is the list of its columns. *)
Lemma omap_column (L : nat) (t : Np.ndarray) (j : nat) :
  Np.rectangular L t -> (j < L)%nat ->
  Np.column t (Z.of_nat j) = Ok (omap (fun row => row !! j) t).
Proof.
  intros Hrect Hj. induction Hrect as [|row t Hrow _ IH]; [reflexivity|].
  simpl. destruct (lookup_lt_is_Some_2 row j) as [x Hx]; [lia|].
  rewrite (getitem_nat _ _ _ Hx), IH, Hx. reflexivity.
Qed.

Lemma transpose_lookup (L : nat) (t : Np.ndarray) (j : nat) :
  Np.rectangular L t -> t <> [] -> (j < L)%nat ->
  exists col,
    Np.column t (Z.of_nat j) = Ok col /\ length col = length t /\
    np_transpose t !! j = Some col.
Proof.
  intros Hrect Hne Hj.
  destruct (column_rectangular L t (Z.of_nat j) Hrect) as (col & Hcol & Hlen);
    [lia|].
  exists col. split; [exact Hcol|]. split; [exact Hlen|].
  rewrite (omap_column L t j Hrect Hj) in Hcol. injection Hcol as <-.
  destruct t as [|r t']; [congruence|]. unfold np_transpose.
  pose proof Hrect as Hr. apply Forall_cons in Hr as [Hr _].
  rewrite list_lookup_fmap, lookup_seq_lt by lia. reflexivity.
Qed.

Lemma length_transpose (L : nat) (t : Np.ndarray) :
  Np.rectangular L t -> t <> [] -> length (np_transpose t) = L.
Proof.
  intros Hrect Hne. destruct t as [|r t']; [congruence|].
  apply Forall_cons in Hrect as [Hr _]. unfold np_transpose.
  rewrite length_fmap, length_seq. exact Hr.
Qed.

Lemma rectangular_transpose (L : nat) (t : Np.ndarray) :
  Np.rectangular L t -> Np.rectangular (length t) (np_transpose t).
Proof.
  intros Hrect. destruct (decide (t = [])) as [->|Hne]; [constructor|].
  apply Forall_lookup. intros j col Hcol.
  assert (j < L)%nat as Hj.
  { apply lookup_lt_Some in Hcol.
    rewrite (length_transpose L t Hrect Hne) in Hcol. exact Hcol. }
  destruct (transpose_lookup L t j Hrect Hne Hj) as (col' & _ & Hlen & Hl).
  congruence.
Qed.

Lemma rectangular_kept (L : nat) (ks : list string) (t : Np.ndarray)
    (ik : list string) :
  Np.rectangular L t -> Np.rectangular L (kept_channels ks t ik).
Proof.
  intros Hrect. unfold kept_channels, Np.rectangular.
  apply Forall_forall. intros row Hrow.
  apply list_elem_of_fmap in Hrow as ([k r] & -> & Hin).
  apply list_elem_of_filter in Hin as [_ Hin].
  apply (list_elem_of_fmap_2 snd) in Hin.
  assert ((zip ks t).*2 `sublist_of` t) as Hsub.
  { clear. revert t. induction ks as [|k ks IH]; intros [|r t]; simpl;
      try constructor; try apply sublist_nil_l. apply IH. }
  eapply Forall_forall in Hrect; [exact Hrect|].
  eapply elem_of_sublist; [exact Hin | exact Hsub].
Qed.

Lemma consecutive_pairs {A} (out : list A) :
  length (Py.slice out 0 (-1)) = (length out - 1)%nat /\
  length (Py.slice out 1 (Z.of_nat (length out))) = (length out - 1)%nat /\
  (forall j : nat,
     (S j < length out)%nat ->
     Py.slice out 0 (-1) !! j = out !! j /\
     Py.slice out 1 (Z.of_nat (length out)) !! j = out !! S j) /\
  (forall (j : nat) (s : A),
     Py.slice out 0 (-1) !! S j = Some s ->
     Py.slice out 1 (Z.of_nat (length out)) !! j = Some s).
Proof.
  rewrite slice_without_last. change 1 with (Z.of_nat 1). rewrite slice_from.
  rewrite length_take, length_drop.
  split; [lia|]. split; [lia|]. split.
  - intros j Hj. rewrite lookup_take_lt by lia. rewrite lookup_drop.
    split; reflexivity.
  - intros j s Hs. rewrite lookup_drop. simpl.
    destruct (Nat.lt_ge_cases (S j) (length out - 1)) as [Hlt|Hge].
    + rewrite lookup_take_lt in Hs by exact Hlt. exact Hs.
    + apply lookup_lt_Some in Hs. rewrite length_take in Hs. lia.
Qed.

(** A dataset, whenever one is returned (by the environment or by the
    trajectory): there was a trajectory, the states and the next states are
    equally many, none is absorbing, and the next state of a transition is
    the state of the following transition. *)
Theorem dataset_pairs_aligned (h : store) (t : option Trajectory)
    (ignore_keys : list string) (normalizer : option normalizer_t)
    (d : dataset) :
  env_create_dataset h t ignore_keys normalizer = Ok d ->
  (exists o, t = Some o /\ create_dataset h o ignore_keys normalizer = Ok d) /\
  length (next_states d) = length (states d) /\
  absorbing d = replicate (length (states d)) 0%Q /\
  (forall (j : nat) (s : list Q),
     states d !! S j = Some s -> next_states d !! j = Some s).
Proof.
  destruct t as [o|]; [|discriminate]. simpl. intros Hd.
  split; [exists o; auto|]. revert Hd. unfold create_dataset.
  destruct (Dict.delitems _ _) as [all_data|]; simpl; [|discriminate].
  destruct (Np.array (Dict.values all_data)) as [arr|]; simpl; [|discriminate].
  match goal with
  | |- (let? states := ?m in _) = _ -> _ => destruct m as [out|]
  end; simpl; [|discriminate].
  intros [= <-]. simpl.
  destruct (consecutive_pairs out) as (H1 & H2 & _ & H3).
  split; [congruence|]. split; [reflexivity|]. exact H3.
Qed.

Lemma dataset_pairs_aligned_witness :
  (exists o,
     Some Examples.walk_object = Some o /\
     create_dataset Examples.scenario_store o [] None
     = Ok (mkDataset [[1; 10]; [3; 20]]%Q [[3; 20]; [6; 40]]%Q [0; 0]%Q)) /\
  length [[3; 20]; [6; 40]]%Q = length [[1; 10]; [3; 20]]%Q /\
  [0; 0]%Q = replicate (length [[1; 10]; [3; 20]]%Q) 0%Q /\
  (forall (j : nat) (s : list Q),
     [[1; 10]; [3; 20]]%Q !! S j = Some s ->
     [[3; 20]; [6; 40]]%Q !! j = Some s).
Proof.
  apply (dataset_pairs_aligned Examples.scenario_store
           (Some Examples.walk_object) [] None
           (mkDataset [[1; 10]; [3; 20]]%Q [[3; 20]; [6; 40]]%Q [0; 0]%Q)).
  reflexivity.
Defined.

(** Distinct keys, one per channel, and ignored keys that are distinct keys
    of the trajectory, not all of them: the dataset holds the samples of the
    kept channels, in the order of the keys; transition [j] goes from sample
    [j] to sample [j + 1], so that there is one transition less than there
    are samples; with a normalizer (that keeps the number of entries) every
    state is normalized with the statistics of all the samples. *)
Theorem create_dataset_content (h : store) (o : Trajectory)
    (ignore_keys ks : list string) (normalizer : option normalizer_t)
    (L : nat) :
  h !! keys o = Some ks -> NoDup ks ->
  length ks = length (trajectory o) ->
  Np.rectangular L (trajectory o) ->
  NoDup ignore_keys -> ignore_keys ⊆ ks ->
  kept_channels ks (trajectory o) ignore_keys <> [] ->
  (forall n m s, normalizer = Some n -> length (n m s) = length s) ->
  exists d,
    create_dataset h o ignore_keys normalizer = Ok d /\
    length (states d) = (L - 1)%nat /\
    length (next_states d) = (L - 1)%nat /\
    absorbing d = replicate (L - 1) 0%Q /\
    forall j : nat,
      (S j < L)%nat ->
      exists s s',
        Np.column (kept_channels ks (trajectory o) ignore_keys) (Z.of_nat j)
        = Ok s /\
        Np.column (kept_channels ks (trajectory o) ignore_keys) (Z.of_nat (S j))
        = Ok s' /\
        states d !! j
        = Some (normalized normalizer
                  (np_transpose (kept_channels ks (trajectory o) ignore_keys)) s) /\
        next_states d !! j
        = Some (normalized normalizer
                  (np_transpose (kept_channels ks (trajectory o) ignore_keys)) s').
Proof.
  intros Hks Hnd Hlen Hrect Hik Hsub Hne Hnorm.
  set (kept := kept_channels ks (trajectory o) ignore_keys) in *.
  assert (Np.rectangular L kept) as Hrk by apply rectangular_kept, Hrect.
  set (full := np_transpose kept).
  assert (length full = L) as Hfull by apply (length_transpose L kept Hrk Hne).
  assert (Np.rectangular (length kept) full) as Hrf
    by apply (rectangular_transpose L), Hrk.
  set (out := normalized normalizer full <$> full).
  assert (length out = L) as Hout by (unfold out; rewrite length_fmap; exact Hfull).
  assert (create_dataset h o ignore_keys normalizer
          = Ok (mkDataset (Py.slice out 0 (-1))
                  (Py.slice out 1 (Z.of_nat (length out)))
                  (replicate (length (Py.slice out 0 (-1))) 0%Q))) as Hrun.
  { unfold create_dataset. rewrite (lookup_total_correct _ _ _ Hks).
    assert ((zip ks (trajectory o)).*1 = ks) as Hfst by (apply fst_zip; lia).
    rewrite of_pairs_NoDup by (rewrite Hfst; exact Hnd).
    rewrite delitems_ok;
      [| rewrite Hfst; exact Hnd | exact Hik | rewrite Hfst; exact Hsub].
    simpl.
    change (Dict.values
              (filter (fun kv : string * list Q => kv.1 ∉ ignore_keys)
                 (zip ks (trajectory o)))) with kept.
    rewrite (array_rectangular L kept Hrk). simpl. fold full.
    destruct normalizer as [n|]; simpl.
    - rewrite (array_rectangular (length kept) (n full <$> full)).
      + reflexivity.
      + apply Forall_fmap. eapply Forall_impl; [exact Hrf|].
        intros s Hs. simpl. rewrite (Hnorm n full s eq_refl). exact Hs.
    - unfold out. change (normalized None full) with (@id (list Q)).
      rewrite list_fmap_id. reflexivity. }
  eexists. split; [exact Hrun|]. simpl.
  destruct (consecutive_pairs out) as (H1 & H2 & H3 & _).
  split; [rewrite H1, Hout; reflexivity|].
  split; [rewrite H2, Hout; reflexivity|].
  split; [rewrite H1, Hout; reflexivity|].
  intros j Hj.
  destruct (transpose_lookup L kept j Hrk Hne) as (s & Hs & _ & Hfs); [lia|].
  destruct (transpose_lookup L kept (S j) Hrk Hne) as (s' & Hs' & _ & Hfs');
    [lia|].
  exists s, s'. split; [exact Hs|]. split; [exact Hs'|].
  destruct (H3 j) as [Ha Hb]; [lia|]. rewrite Ha, Hb. unfold out.
  fold full in Hfs, Hfs'.
  rewrite !list_lookup_fmap, Hfs, Hfs'. split; reflexivity.
Qed.

Lemma create_dataset_content_witness :
  exists d,
    create_dataset Examples.scenario_store Examples.walk_object ["pos"%string]
      (Some Examples.shift) = Ok d /\
    length (states d) = (3 - 1)%nat /\
    length (next_states d) = (3 - 1)%nat /\
    absorbing d = replicate (3 - 1) 0%Q /\
    forall j : nat,
      (S j < 3)%nat ->
      exists s s',
        Np.column
          (kept_channels ["pos"; "vel"]%string
             (trajectory Examples.walk_object) ["pos"%string]) (Z.of_nat j)
        = Ok s /\
        Np.column
          (kept_channels ["pos"; "vel"]%string
             (trajectory Examples.walk_object) ["pos"%string]) (Z.of_nat (S j))
        = Ok s' /\
        states d !! j
        = Some (normalized (Some Examples.shift)
                  (np_transpose
                     (kept_channels ["pos"; "vel"]%string
                        (trajectory Examples.walk_object) ["pos"%string])) s) /\
        next_states d !! j
        = Some (normalized (Some Examples.shift)
                  (np_transpose
                     (kept_channels ["pos"; "vel"]%string
                        (trajectory Examples.walk_object) ["pos"%string])) s').
Proof.
  apply (create_dataset_content Examples.scenario_store Examples.walk_object
           ["pos"%string] ["pos"; "vel"]%string
           (Some Examples.shift) 3).
  - reflexivity.
  - repeat constructor; rewrite ?elem_of_cons; intros H;
      repeat (destruct H as [H|H]; [discriminate H|]); inversion H.
  - reflexivity.
  - repeat constructor.
  - repeat constructor. intros H. inversion H.
  - intros x Hx. apply list_elem_of_singleton in Hx as ->. left.
  - discriminate.
  - intros n m s [= <-]. apply length_fmap.
Defined.

(** Ignored keys that are not distinct keys of the trajectory (a key that
    the trajectory lacks, or one that is listed twice) make [create_dataset]
    fail with [KeyError]. *)
Theorem create_dataset_key_error (h : store) (o : Trajectory)
    (ignore_keys ks : list string) (normalizer : option normalizer_t) :
  h !! keys o = Some ks -> NoDup ks ->
  (length ks <= length (trajectory o))%nat ->
  ~ (NoDup ignore_keys /\ ignore_keys ⊆ ks) ->
  create_dataset h o ignore_keys normalizer = Raise KeyError.
Proof.
  intros Hks Hnd Hlen Hbad.
  unfold create_dataset. rewrite (lookup_total_correct _ _ _ Hks).
  assert ((zip ks (trajectory o)).*1 = ks) as Hfst by (apply fst_zip; lia).
  rewrite of_pairs_NoDup by (rewrite Hfst; exact Hnd).
  rewrite delitems_error; [reflexivity | rewrite Hfst; exact Hnd |].
  rewrite Hfst. exact Hbad.
Qed.

Lemma create_dataset_key_error_witness :
  create_dataset Examples.scenario_store Examples.walk_object
    ["vel"; "vel"]%string None = Raise KeyError.
Proof.
  apply (create_dataset_key_error Examples.scenario_store Examples.walk_object
           ["vel"; "vel"]%string ["pos"; "vel"]%string None).
  - reflexivity.
  - repeat constructor; rewrite ?elem_of_cons; intros H;
      repeat (destruct H as [H|H]; [discriminate H|]); inversion H.
  - unfold Examples.walk_object, Examples.walk. simpl. lia.
  - intros [H _]. apply NoDup_cons in H as [H _]. apply H. left.
Defined.

Lemma consecutive_triplets {A} (out : list A) :
  length (Py.slice out 0 (-2)) = (length out - 2)%nat /\
  length (Py.slice out 1 (-1)) = (length out - 2)%nat /\
  length (Py.slice out 2 (Z.of_nat (length out))) = (length out - 2)%nat /\
  (forall j : nat,
     (S (S j) < length out)%nat ->
     Py.slice out 0 (-2) !! j = out !! j /\
     Py.slice out 1 (-1) !! j = out !! S j /\
     Py.slice out 2 (Z.of_nat (length out)) !! j = out !! S (S j)).
Proof.
  pose proof (slice_inner out 0 2 ltac:(lia)) as E1.
  pose proof (slice_inner out 1 1 ltac:(lia)) as E2.
  pose proof (slice_from out 2) as E3.
  change (Z.of_nat 0) with 0 in E1. change (- Z.of_nat 2) with (-2) in E1.
  change (- Z.of_nat 1) with (-1) in E2. change (Z.of_nat 1) with 1 in E2.
  change (Z.of_nat 2) with 2 in E3.
  rewrite E1, E2, E3. rewrite !length_take, !length_drop.
  split; [lia|]. split; [lia|]. split; [lia|].
  intros j Hj. rewrite !lookup_take_lt by lia. rewrite !lookup_drop.
  repeat split.
Qed.

(** [create_datase_with_triplet_states] needs a normalizer: without one it
    fails on the unbound local [norm_states]; with one, whatever it returns
    holds, for each [j], the normalized samples [j], [j + 1] and [j + 2] of
    the trajectory, so two triplets less than there are samples. *)
Theorem triplet_dataset_needs_normalizer (o : Trajectory)
    (normalizer : option normalizer_t) :
  (normalizer = None ->
   create_datase_with_triplet_states o normalizer = Raise NameError) /\
  (forall d : triplet_dataset,
     create_datase_with_triplet_states o normalizer = Ok d ->
     exists n out,
       normalizer = Some n /\
       out = n (np_transpose (trajectory o)) <$> np_transpose (trajectory o) /\
       length (triplet_states d) = (length out - 2)%nat /\
       length (triplet_next_states d) = (length out - 2)%nat /\
       length (triplet_next_next_states d) = (length out - 2)%nat /\
       forall j : nat,
         (S (S j) < length out)%nat ->
         triplet_states d !! j = out !! j /\
         triplet_next_states d !! j = out !! S j /\
         triplet_next_next_states d !! j = out !! S (S j)).
Proof.
  split; [intros ->; reflexivity|].
  intros d. unfold create_datase_with_triplet_states.
  destruct normalizer as [n|]; simpl; [|discriminate].
  set (full := np_transpose (trajectory o)).
  destruct (Np.array (n full <$> full)) as [out|] eqn:Harr; simpl;
    [|discriminate].
  assert (out = n full <$> full) as ->.
  { unfold Np.array in Harr. destruct (n full <$> full) as [|r rows] eqn:E.
    - congruence.
    - destruct (Np.same_lengthb _ _); congruence. }
  intros [= <-]. simpl. exists n, (n full <$> full).
  split; [reflexivity|]. split; [reflexivity|].
  apply consecutive_triplets.
Qed.

Lemma triplet_dataset_needs_normalizer_witness :
  create_datase_with_triplet_states Examples.walk_object None
  = Raise NameError /\
  exists n out,
    Some Examples.shift = Some n /\
    out = n (np_transpose (trajectory Examples.walk_object))
            <$> np_transpose (trajectory Examples.walk_object) /\
    length [[0; 9]]%Q = (length out - 2)%nat /\
    length [[2; 19]]%Q = (length out - 2)%nat /\
    length [[5; 39]]%Q = (length out - 2)%nat /\
    forall j : nat,
      (S (S j) < length out)%nat ->
      [[0; 9]]%Q !! j = out !! j /\
      [[2; 19]]%Q !! j = out !! S j /\
      [[5; 39]]%Q !! j = out !! S (S j).
Proof.
  split.
  - apply (proj1 (triplet_dataset_needs_normalizer Examples.walk_object None)).
    reflexivity.
  - apply (proj2 (triplet_dataset_needs_normalizer Examples.walk_object
                    (Some Examples.shift))
             (mkTriplets [[0; 9]]%Q [[2; 19]]%Q [[5; 39]]%Q)).
    reflexivity.
Defined.

(** ** The environment's reset *)

Lemma prefixes_disjoint (k : string) :
  String.prefix "q_" k = true -> String.prefix "dq_" k = true -> False.
Proof.
  intros H1 H2. apply String.prefix_correct in H1, H2.
  destruct k as [|b k]; simpl in H1, H2; [discriminate|]. congruence.
Qed.

Lemma filter_none {A} (P : A -> Prop) `{!forall x, Decision (P x)} (l : list A) :
  Forall (fun x => ~ P x) l -> filter P l = [].
Proof.
  induction 1 as [|x l Hx _ IH]; [reflexivity|].
  rewrite filter_cons_False by exact Hx. exact IH.
Qed.

(** Keys laid out as the positions, then the velocities, then anything else:
    [len_qpos_qvel] counts the positions and the velocities. *)
Lemma len_qpos_qvel_layout (qs dqs others : list string) :
  Forall (fun k => String.prefix "q_" k = true) qs ->
  Forall (fun k => String.prefix "dq_" k = true) dqs ->
  Forall (fun k => String.prefix "q_" k = false /\
                   String.prefix "dq_" k = false) others ->
  len_qpos_qvel (qs ++ dqs ++ others)
  = (Z.of_nat (length qs), Z.of_nat (length dqs)).
Proof.
  intros Hq Hdq Ho. unfold len_qpos_qvel. rewrite !filter_app.
  rewrite (filter_all _ qs Hq), (filter_all _ dqs Hdq).
  rewrite (filter_none (fun k => String.prefix "q_" k = true) dqs).
  2:{ eapply Forall_impl; [exact Hdq|]. intros k Hk Hk'.
      exact (prefixes_disjoint k Hk' Hk). }
  rewrite (filter_none (fun k => String.prefix "q_" k = true) others).
  2:{ eapply Forall_impl; [exact Ho|]. intros k [Hk _]. simpl. congruence. }
  rewrite (filter_none (fun k => String.prefix "dq_" k = true) qs).
  2:{ eapply Forall_impl; [exact Hq|]. intros k Hk Hk'.
      exact (prefixes_disjoint k Hk Hk'). }
  rewrite (filter_none (fun k => String.prefix "dq_" k = true) others).
  2:{ eapply Forall_impl; [exact Ho|]. intros k [_ Hk]. simpl. congruence. }
  rewrite !app_nil_r. reflexivity.
Qed.

Lemma length_filter_disjoint {A} (P Q : A -> Prop)
    `{!forall x, Decision (P x)} `{!forall x, Decision (Q x)} (l : list A) :
  (forall x, P x -> Q x -> False) ->
  (length (filter P l) + length (filter Q l) <= length l)%nat.
Proof.
  intros Hd. induction l as [|x l IH]; [reflexivity|].
  rewrite !filter_cons.
  destruct (decide (P x)) as [HP|], (decide (Q x)) as [HQ|]; simpl; try lia.
  destruct (Hd x HP HQ).
Qed.

(** No key counts twice: the positions and the velocities that
    [len_qpos_qvel] counts are never more than there are keys. *)
Theorem len_qpos_qvel_bounds (keys : list string) :
  0 <= fst (len_qpos_qvel keys) /\ 0 <= snd (len_qpos_qvel keys) /\
  fst (len_qpos_qvel keys) + snd (len_qpos_qvel keys)
  <= Z.of_nat (length keys).
Proof.
  unfold len_qpos_qvel. simpl.
  pose proof (length_filter_disjoint
                (fun key => String.prefix "q_" key = true)
                (fun key => String.prefix "dq_" key = true) keys
                prefixes_disjoint).
  lia.
Qed.

Lemma slice_whole {A} (l : list A) : Py.slice l 0 (Z.of_nat (length l)) = l.
Proof. apply (slice_from l 0). Qed.

(** The reset of an environment whose observation keys are the positions,
    then the velocities, then the rest, one trajectory channel per key: the
    cursor is drawn in the first 45 percent of the trajectory, and the
    positions and velocities that the environment is given are, in this
    order, the leading parts of the sample at the cursor, which is the
    sample that the next step will play. *)
Theorem setup_splits_sample (qs dqs others : list string) (w : World)
    (L : nat) :
  Forall (fun k => String.prefix "q_" k = true) qs ->
  Forall (fun k => String.prefix "dq_" k = true) dqs ->
  Forall (fun k => String.prefix "q_" k = false /\
                   String.prefix "dq_" k = false) others ->
  length (trajectory (self w)) = length (qs ++ dqs ++ others) ->
  (2 <= length (trajectory (self w)))%nat ->
  Np.rectangular L (trajectory (self w)) ->
  Np.shape1 (subtraj (self w)) = Ok (Z.of_nat L) -> (0 < L)%nat ->
  exists qpos qvel rest w',
    env_setup (qs ++ dqs ++ others) w = (Ok (qpos, qvel), w') /\
    length qpos = length qs /\ length qvel = length dqs /\
    length rest = length others /\
    Np.column (subtraj (self w')) (subtraj_step_no (self w'))
    = Ok (qpos ++ qvel ++ rest) /\
    0 <= subtraj_step_no (self w') /\
    (inject_Z (subtraj_step_no (self w')) < (45 # 100) * inject_Z (Z.of_nat L))%Q /\
    x_dist (self w') = 0%Q.
Proof.
  intros Hq Hdq Ho Hlen H2 Hrect Hshape HL.
  unfold env_setup. rewrite (len_qpos_qvel_layout qs dqs others Hq Hdq Ho).
  simpl call_reset_trajectory.
  rewrite (reset_trajectory_random _ _ _ _ Hshape).
  set (c := Py.int (fst (Np.rand (np_random w))
                    * (inject_Z (Z.of_nat L) * (45 # 100)))).
  assert (0 < Z.of_nat L) as HLz by lia.
  pose proof (cursor_range (fst (Np.rand (np_random w))) (Z.of_nat L)
                (rand_unit_interval _) HLz) as [Hc0 Hc1].
  pose proof (cursor_below_length (fst (Np.rand (np_random w))) (Z.of_nat L)
                (rand_unit_interval _) HLz) as Hc.
  fold c in Hc0, Hc1, Hc.
  match goal with
  | |- context [offset_and_read ?a ?b ?w1] =>
      destruct (offset_and_read_result a b w1 L)
        as (x0 & y0 & sample & _ & _ & Hsample & Heq);
        [exact Hrect | exact H2 | simpl; lia |]
  end.
  simpl in Hsample, Heq.
  pose proof (column_length _ _ _ Hsample) as Hls.
  unfold offset_copy, Np.isub_row in Hls. rewrite !length_alter in Hls.
  rewrite Hlen, !length_app in Hls.
  set (a := Z.of_nat (length qs)) in *.
  set (b := Z.of_nat (length dqs)) in *.
  exists (Py.slice sample 0 a), (Py.slice sample a (a + b)),
    (Py.slice sample (a + b) (Z.of_nat (length sample))).
  eexists. split; [exact Heq|]. simpl.
  split; [apply Nat2Z.inj; rewrite length_slice; lia|].
  split; [apply Nat2Z.inj; rewrite length_slice; lia|].
  split; [apply Nat2Z.inj; rewrite length_slice; lia|].
  split.
  - rewrite Hsample. f_equal.
    rewrite (slice_app sample a (a + b)) by lia.
    rewrite (slice_app sample 0 a) by lia.
    symmetry. apply slice_whole.
  - split; [exact Hc0|]. split; [exact Hc1|]. reflexivity.
Qed.

Lemma setup_splits_sample_witness :
  exists qpos qvel rest w',
    env_setup (["q_knee"%string] ++ ["dq_knee"%string] ++ ["foot"%string])
      (mkWorld
         (mkTrajectory (mkNpz ∅ None) 1%positive
            [[1; 3; 6]; [10; 20; 40]; [7; 8; 9]]%Q [0; 3] 1 (1 # 500) (1 # 100)
            1 0 0 [[1; 3; 6]; [10; 20; 40]; [7; 8; 9]]%Q)
         Examples.generator 0)
    = (Ok (qpos, qvel), w') /\
    length qpos = length ["q_knee"%string] /\
    length qvel = length ["dq_knee"%string] /\
    length rest = length ["foot"%string] /\
    Np.column (subtraj (self w')) (subtraj_step_no (self w'))
    = Ok (qpos ++ qvel ++ rest) /\
    0 <= subtraj_step_no (self w') /\
    (inject_Z (subtraj_step_no (self w')) < (45 # 100) * inject_Z (Z.of_nat 3))%Q /\
    x_dist (self w') = 0%Q.
Proof.
  apply (setup_splits_sample ["q_knee"%string] ["dq_knee"%string]
           ["foot"%string]
           (mkWorld
              (mkTrajectory (mkNpz ∅ None) 1%positive
                 [[1; 3; 6]; [10; 20; 40]; [7; 8; 9]]%Q [0; 3] 1 (1 # 500)
                 (1 # 100) 1 0 0 [[1; 3; 6]; [10; 20; 40]; [7; 8; 9]]%Q)
              Examples.generator 0) 3).
  - repeat constructor.
  - repeat constructor.
  - repeat constructor.
  - reflexivity.
  - simpl. lia.
  - repeat constructor.
  - reflexivity.
  - lia.
Defined.
